(** * Debate Orchestration Core: moderator state machine, arbiter and cache

    A shallow embedding of the agents under [backend/app/agents]:
    - [grok_agent.py]: [DebateStateMachine] and the moderator [GrokAgent];
    - [claude_agent.py]: the arbiter [ClaudeAgent];
    - [gpt_agent.py]: the refiner's cached model call.

    Conventions.
    - Python [int] is [Z]; Python [%] with a positive modulus is [Z.modulo].
    - Python [float] (confidences, similarities, thresholds) is idealised as
      [Q]: comparisons are exact, rounding is not modelled.
    - Instants ([datetime.utcnow()]) are [Z] microseconds; the ISO-8601
      strings the code stores order as the instants they print.
    - A method that mutates [self], sends on the websocket or talks to Redis
      is a computation in the monad [M]: state survives an exception, as the
      mutations of a Python object do. *)

From Stdlib Require Import ZArith QArith List String Ascii Bool Lia Sorted Permutation.
From Stdlib Require Import DecimalString.
From stdpp Require Import gmap strings list.

Open Scope string_scope.
Open Scope list_scope.
Open Scope Z_scope.

(** ** Python exceptions and results *)

Inductive exn : Type :=
  | AttributeError (cls attr : string)
  | IndexError
  | KeyError
  | ValueError
  | TypeError
  | TransportError.

Inductive result (A : Type) : Type :=
  | Ok (a : A)
  | Raise (e : exn).
Arguments Ok {A} a.
Arguments Raise {A} e.

(** ** Floats as rationals *)

Definition Qgtb (x y : Q) : bool := negb (Qle_bool x y).

Lemma Qgtb_true (x y : Q) : Qgtb x y = true <-> (y < x)%Q.
Proof.
  unfold Qgtb. rewrite negb_true_iff. split.
  - intros H. apply Qnot_le_lt. intros Hle.
    apply Qle_bool_iff in Hle. congruence.
  - intros H. destruct (Qle_bool x y) eqn:E; [|reflexivity].
    apply Qle_bool_iff in E. exfalso. exact (Qlt_not_le _ _ H E).
Qed.

Lemma Qgtb_false (x y : Q) : Qgtb x y = false <-> (x <= y)%Q.
Proof.
  unfold Qgtb. rewrite negb_false_iff. apply Qle_bool_iff.
Qed.

(** ** Python sequences *)

(** [l[i]] with Python's negative indices. *)
Definition py_index {A : Type} (l : list A) (i : Z) : result A :=
  let n := Z.of_nat (length l) in
  let j := if i <? 0 then i + n else i in
  if (0 <=? j) && (j <? n)
  then match nth_error l (Z.to_nat j) with
       | Some x => Ok x
       | None => Raise IndexError
       end
  else Raise IndexError.

(** [l[-k:]] for a positive literal [k]. *)
Definition py_suffix {A : Type} (k : nat) (l : list A) : list A :=
  skipn (length l - k)%nat l.

(** [sep.join(l)]. *)
Fixpoint join (sep : string) (l : list string) : string :=
  match l with
  | [] => ""
  | [x] => x
  | x :: rest => String.append x (String.append sep (join sep rest))
  end.

(** ** Configuration: the process-wide [CONFIG] dict of [base_agent.py] *)

Record Config : Type := {
  REDIS_CHANNEL_MOD : string;
  REDIS_CHANNEL_RES : string;
  REDIS_CHANNEL_ARB : string;
  CONFIDENCE_THRESHOLD : Q;
  CONSENSUS_THRESHOLD : Q;
  MIN_DEBATE_ROUNDS : Z;
  MAX_DEBATE_ROUNDS : Z;
  CACHING_ENABLED : bool;
  CACHE_TTL : Z;
  ENABLE_DEADLOCK_DETECTION : bool;
  DEBATE_TIMEOUT : Z;
  MAX_HISTORY_SIZE : Z
}.

(** The values [CONFIG] takes when the environment sets none of them. *)
Definition default_config : Config := {|
  REDIS_CHANNEL_MOD := "moderation_channel";
  REDIS_CHANNEL_RES := "responses_channel";
  REDIS_CHANNEL_ARB := "arbitration_channel";
  CONFIDENCE_THRESHOLD := 25 # 100;
  CONSENSUS_THRESHOLD := 15 # 100;
  MIN_DEBATE_ROUNDS := 2;
  MAX_DEBATE_ROUNDS := 4;
  CACHING_ENABLED := true;
  CACHE_TTL := 300;
  ENABLE_DEADLOCK_DETECTION := true;
  DEBATE_TIMEOUT := 30;
  MAX_HISTORY_SIZE := 10
|}.

(** ** Wire payloads *)

(** An f-string before rendering: literal text and interpolated values. *)
Inductive frag : Type :=
  | Lit (s : string)
  | Str (s : string)
  | Int (z : Z)
  | Float (q : Q).

Definition text : Type := list frag.

(** The dict [_generate_signal] builds; its [log] entry is a rendering of
    the agent name and of the fields below and is left out. *)
Record Signal : Type := {
  sig_timestamp : Z;
  sig_state : string;
  sig_speaker : string;
  sig_message : text;
  sig_flag : option string
}.

Record Dissent : Type := {
  dis_agent : string;
  dis_content : string;
  dis_confidence : Q
}.

(** The [result] dicts the arbiter publishes. [winning_agent] is [None] where
    the dict has no such key; [dissenting_view] is [None] where the key is
    missing or holds Python's [None]. *)
Record Outcome : Type := {
  out_debate_id : string;
  out_round : Z;
  out_status : string;
  out_content : string;
  out_confidence : Q;
  out_winning_agent : option string;
  out_contributing_agents : list string;
  out_dissenting_view : option Dissent;
  out_timestamp : Z
}.

Inductive payload : Type :=
  | PTurn (state speaker action : string)
  | PFlag (flag : string) (log : string)
  | PSignal (s : Signal)
  | POutcome (o : Outcome)
  | PContinue (debate_id : string) (round : Z) (next_round : Z) (timestamp : Z).

Inductive event : Type :=
  | WsSend (p : payload)
  | RedisPublish (channel : string) (p : payload)
  | RedisSet (key value : string).

(** ** The monad of methods: state, emitted events, exceptions *)

Definition M (S A : Type) : Type := S -> result A * S * list event.

Definition ret {S A : Type} (a : A) : M S A := fun s => (Ok a, s, []).

Definition bind {S A B : Type} (m : M S A) (k : A -> M S B) : M S B :=
  fun s =>
    match m s with
    | (Ok a, s1, ev1) =>
        match k a s1 with
        | (r, s2, ev2) => (r, s2, ev1 ++ ev2)
        end
    | (Raise e, s1, ev1) => (Raise e, s1, ev1)
    end.

Definition get {S : Type} : M S S := fun s => (Ok s, s, []).
Definition put {S : Type} (s : S) : M S unit := fun _ => (Ok tt, s, []).
Definition modify {S : Type} (f : S -> S) : M S unit := fun s => (Ok tt, f s, []).
Definition raise {S A : Type} (e : exn) : M S A := fun s => (Raise e, s, []).
Definition emit {S : Type} (e : event) : M S unit := fun s => (Ok tt, s, [e]).
Definition lift_result {S A : Type} (r : result A) : M S A :=
  fun s => (r, s, []).

(** Run a computation on a component of the state. *)
Definition zoom {S T A : Type} (proj : S -> T) (upd : T -> S -> S)
    (m : M T A) : M S A :=
  fun s => match m (proj s) with (r, t, ev) => (r, upd t s, ev) end.

Declare Scope monad_scope.
Delimit Scope monad_scope with monad.
Notation "'let*' x ':=' c1 'in' c2" := (bind c1 (fun x => c2))
  (at level 10, x binder, c1 at level 100, c2 at level 200) : monad_scope.
Notation "c1 ';;' c2" := (bind c1 (fun _ => c2))
  (at level 100, c2 at level 200, right associativity) : monad_scope.
Open Scope monad_scope.

Definition final_state {S A : Type} (r : result A * S * list event) : S :=
  snd (fst r).
Definition events {S A : Type} (r : result A * S * list event) : list event :=
  snd r.
Definition outcome {S A : Type} (r : result A * S * list event) : result A :=
  fst (fst r).

(** ** Messages on the bus and the embedding provider *)

(** The [response] dict of a message on the responses channel; a field is
    [None] where the dict has no such key. *)
Record Response : Type := {
  debate_id : option string;
  round : option Z;
  content : option string;
  confidence : option Q;
  reasoning : option string
}.

(** [dict.get(key, default)]. *)
Definition get_default {A : Type} (o : option A) (d : A) : A :=
  match o with Some a => a | None => d end.

(** Sentence embeddings; an encoder maps a text to its vector. *)
Definition Vec : Type := list Q.
Definition Encoder : Type := string -> Vec.

(** [BaseAgent._generate_signal]. *)
Definition _generate_signal (now : Z) (state speaker : string) (message : text)
    (flag : option string) : Signal :=
  {| sig_timestamp := now; sig_state := state; sig_speaker := speaker;
     sig_message := message; sig_flag := flag |}.

(** The UTF-8 bytes of the em dash the log lines use. *)
Definition em_dash : string :=
  String (ascii_of_nat 226) (String (ascii_of_nat 128)
    (String (ascii_of_nat 148) EmptyString)).

(** * The moderator: [grok_agent.py] *)

Module DebateStateMachine.

Definition states : list string := ["propose"; "critique"; "refine"; "conclude"].
Definition speakers : list string := ["Grok"; "Claude"; "GPT"].

(** The attributes of an instance. [states], [speakers] and [redis] never
    change after [__init__] and are the constants above and the event
    trace. [sentence_model] is [None] while the instance has no such
    attribute. *)
Record t : Type := mk {
  state_idx : Z;
  current_speaker_idx : Z;
  turns_since_progress : Z;
  sentence_model : option Encoder
}.

(** [__init__]: it assigns no [sentence_model]. *)
Definition init : t :=
  {| state_idx := 0; current_speaker_idx := 0; turns_since_progress := 0;
     sentence_model := None |}.

Definition current_state : M t string :=
  let* s := get in lift_result (py_index states (state_idx s)).

Definition current_speaker : M t string :=
  let* s := get in lift_result (py_index speakers (current_speaker_idx s)).

Definition _rotate_speaker : M t unit :=
  modify (fun s =>
    mk (state_idx s)
       ((current_speaker_idx s + 1) mod Z.of_nat (length speakers))
       (turns_since_progress s) (sentence_model s)).

Section Methods.
Variable cfg : Config.
Variable cos_sim : Vec -> Vec -> Q.

Definition next_turn (message : string) : M t unit :=
  modify (fun s =>
    mk ((state_idx s + 1) mod Z.of_nat (length states))
       (current_speaker_idx s) (turns_since_progress s) (sentence_model s));;
  _rotate_speaker;;
  modify (fun s =>
    mk (state_idx s) (current_speaker_idx s)
       (if 0 <? state_idx s then 0 else turns_since_progress s + 1)
       (sentence_model s));;
  let* st := current_state in
  emit (RedisSet "debate_state" st);;
  let* sp := current_speaker in
  emit (RedisSet "current_speaker" sp);;
  let* st := current_state in
  let* sp := current_speaker in
  emit (RedisPublish (REDIS_CHANNEL_MOD cfg) (PTurn st sp "next_turn")).

Definition detect_loop (history : list string) : M t bool :=
  if (length history <? 2)%nat then ret false
  else
    let* s := get in
    match sentence_model s with
    | None => raise (AttributeError "DebateStateMachine" "sentence_model")
    | Some encode =>
        let* h1 := lift_result (py_index history (-1)) in
        let* h2 := lift_result (py_index history (-2)) in
        let embeddings := List.map encode [h1; h2] in
        let* e0 := lift_result (py_index embeddings 0) in
        let* e1 := lift_result (py_index embeddings 1) in
        let similarity := cos_sim e0 e1 in
        ret (Qgtb similarity (87 # 100))
    end.

Definition handle_loop : M t payload :=
  modify (fun s =>
    mk (Z.min (state_idx s + 1) (Z.of_nat (length states) - 1))
       (current_speaker_idx s) (turns_since_progress s) (sentence_model s));;
  ret (PFlag "loop_detected"
         (String.append "Grok: Loop detected"
            (String.append em_dash "pivoting."))).

Definition detect_deadlock : M t bool :=
  let* s := get in ret (3 <=? turns_since_progress s).

Definition kill_switch (history : list string) : M t payload :=
  let summary :=
    String.append "Deadlock detected. Summary: "
      (join " | " (py_suffix 3 history)) in
  modify (fun s =>
    mk 0 (current_speaker_idx s) (turns_since_progress s) (sentence_model s));;
  modify (fun s =>
    mk (state_idx s) (current_speaker_idx s) 0 (sentence_model s));;
  ret (PFlag "kill_switch"
         (String.append "Grok: Kill switch"
            (String.append em_dash (String.append "reset: " summary)))).

End Methods.

End DebateStateMachine.

Module GrokAgent.

Module DSM := DebateStateMachine.

(** The moderator's attributes. Its [sentence_model] belongs to the agent,
    not to the state machine it owns. *)
Record t : Type := mk {
  state_machine : DSM.t;
  history : list string;
  sentence_model : Encoder
}.

(** [__init__], given the encoder [SentenceTransformer] loads. *)
Definition init (encode : Encoder) : t :=
  {| state_machine := DSM.init; history := []; sentence_model := encode |}.

(** A method of [self.state_machine] run from the agent. *)
Definition on_sm {A : Type} (m : M DSM.t A) : M t A :=
  zoom state_machine (fun sm s => mk sm (history s) (sentence_model s)) m.

Section Methods.
Variable cfg : Config.
Variable cos_sim : Vec -> Vec -> Q.

(** [self.history.append(content)], then [self.history.pop(0)] when the
    list has outgrown [MAX_HISTORY_SIZE]. *)
Definition remember (history : list string) (content : string)
    : list string :=
  let history := history ++ [content] in
  if MAX_HISTORY_SIZE cfg <? Z.of_nat (length history)
  then tl history
  else history.

Definition process_response (now : Z) (response : Response)
    (agent : string) : M t unit :=
  let content := get_default (content response) "" in
  modify (fun s =>
    mk (state_machine s) (remember (history s) content) (sentence_model s));;
  let* state := on_sm DSM.current_state in
  let* speaker := on_sm DSM.current_speaker in
  let signal := _generate_signal now state speaker [Str content] None in
  emit (WsSend (PSignal signal));;
  let* s := get in
  let* looped := on_sm (DSM.detect_loop cos_sim (history s)) in
  if looped then
    let* signal := on_sm DSM.handle_loop in
    emit (WsSend signal);;
    emit (RedisPublish (REDIS_CHANNEL_MOD cfg) signal)
  else
    let* dead :=
      (if ENABLE_DEADLOCK_DETECTION cfg then on_sm DSM.detect_deadlock
       else ret false) in
    if dead then
      let* s := get in
      let* signal := on_sm (DSM.kill_switch (history s)) in
      emit (WsSend signal);;
      emit (RedisPublish (REDIS_CHANNEL_MOD cfg) signal)
    else
      on_sm (DSM.next_turn cfg content);;
      let* state := on_sm DSM.current_state in
      let* speaker := on_sm DSM.current_speaker in
      let next_signal :=
        _generate_signal now state speaker
          [Str agent; Lit " turn complete - next up."] None in
      emit (WsSend (PSignal next_signal)).

(** [process_moderation]: the [state] of a moderation message. *)
Definition process_moderation (state : string) : M t unit :=
  if String.eqb state "loop_detected" || String.eqb state "kill_switch"
  then ret tt
  else if String.eqb state "continue"
  then modify (fun s => mk (state_machine s) [] (sentence_model s))
  else if String.eqb state "timeout"
  then modify (fun s =>
         mk (DSM.mk 0 (DSM.current_speaker_idx (state_machine s))
               (DSM.turns_since_progress (state_machine s))
               (DSM.sentence_model (state_machine s)))
            [] (sentence_model s))
  else ret tt.

End Methods.

End GrokAgent.

(** * The arbiter: [claude_agent.py] *)

(** ** Python dicts with string keys, in insertion order *)

Definition dict (V : Type) : Type := list (string * V).

Fixpoint dict_get {V : Type} (k : string) (d : dict V) : option V :=
  match d with
  | [] => None
  | (k', v) :: rest => if String.eqb k k' then Some v else dict_get k rest
  end.

(** [d[k] = v]: in place for a key already there, at the end for a new one. *)
Fixpoint dict_set {V : Type} (k : string) (v : V) (d : dict V) : dict V :=
  match d with
  | [] => [(k, v)]
  | (k', v') :: rest =>
      if String.eqb k k' then (k', v) :: rest
      else (k', v') :: dict_set k v rest
  end.

(** [del d[k]] for a key of [d]. *)
Fixpoint dict_del {V : Type} (k : string) (d : dict V) : dict V :=
  match d with
  | [] => []
  | (k', v') :: rest =>
      if String.eqb k k' then rest else (k', v') :: dict_del k rest
  end.

Definition dict_mem {V : Type} (k : string) (d : dict V) : bool :=
  match dict_get k d with Some _ => true | None => false end.

(** ** Sorting and maxima as Python computes them *)

Section ByKey.
Context {A : Type}.
Variable key : A -> Q.

(** [max(l, key=key)]: the first of the maximal elements. *)
Definition py_max (l : list A) : result A :=
  match l with
  | [] => Raise ValueError
  | x :: rest =>
      Ok (fold_left (fun best y => if Qgtb (key y) (key best) then y else best)
            rest x)
  end.

(** One step of a stable descending insertion: [x] lands before the first
    element whose key does not exceed its own. *)
Fixpoint insert_desc (x : A) (l : list A) : list A :=
  match l with
  | [] => [x]
  | y :: rest =>
      if Qgtb (key y) (key x) then y :: insert_desc x rest
      else x :: y :: rest
  end.

(** [sorted(l, key=key, reverse=True)]: descending, and stable, so equal
    keys keep the order they had in [l]. *)
Fixpoint py_sorted_desc (l : list A) : list A :=
  match l with
  | [] => []
  | x :: rest => insert_desc x (py_sorted_desc rest)
  end.

End ByKey.

(** The nested loops [for i ...: for j in range(i+1, n)] counting the
    pairs that pass [test]. *)
Fixpoint count_pairs {B : Type} (test : B -> B -> bool) (l : list B) : Z :=
  match l with
  | [] => 0
  | x :: rest =>
      Z.of_nat (length (List.filter (test x) rest)) + count_pairs test rest
  end.

(** ** Word-set similarity: [_text_similarity] *)

(** [str.lower] on ASCII letters. *)
Definition lower_ascii (c : ascii) : ascii :=
  let n := nat_of_ascii c in
  if ((65 <=? n) && (n <=? 90))%nat then ascii_of_nat (n + 32) else c.

Fixpoint lower (s : string) : string :=
  match s with
  | EmptyString => EmptyString
  | String c rest => String (lower_ascii c) (lower rest)
  end.

(** The ASCII characters [str.split()] treats as separators. *)
Definition is_space (c : ascii) : bool :=
  let n := nat_of_ascii c in
  (((9 <=? n) && (n <=? 13)) || ((28 <=? n) && (n <=? 32)))%nat.

(** [s.split()]: the maximal runs of non-space characters. *)
Fixpoint split_from (word : string) (s : string) : list string :=
  match s with
  | EmptyString =>
      match word with EmptyString => [] | _ => [word] end
  | String c rest =>
      if is_space c
      then match word with
           | EmptyString => split_from EmptyString rest
           | _ => word :: split_from EmptyString rest
           end
      else split_from (String.append word (String c EmptyString)) rest
  end.

Definition split (s : string) : list string := split_from EmptyString s.

Definition word_set (text : string) : gset string :=
  list_to_set (split (lower text)).

Definition _text_similarity (text1 text2 : string) : Q :=
  let words1 := word_set text1 in
  let words2 := word_set text2 in
  if bool_decide (words1 = ∅) || bool_decide (words2 = ∅) then 0%Q
  else
    let intersection := Z.of_nat (size (words1 ∩ words2)) in
    let union := Z.of_nat (size (words1 ∪ words2)) in
    (inject_Z intersection / inject_Z union)%Q.

Module ClaudeAgent.

Definition agent_name : string := "Claude".

(** A response as the arbiter files it under its debate and round. *)
Record Stored : Type := {
  r_agent : string;
  r_content : string;
  r_confidence : Q;
  r_reasoning : string;
  r_timestamp : Z
}.

Inductive Status : Type := active | completed.

Record Debate : Type := {
  rounds : gmap Z (list Stored);
  status : Status;
  start_time : Z
}.

(** The arbiter's attributes, together with the module-level [CONFIG] its
    methods read: a dict any statement could assign into, so it is part
    of the state and a method's effect on it can be stated. *)
Record t : Type := mk {
  CONFIG : Config;
  active_debates : dict Debate;
  model : option Encoder
}.

(** [__init__]: [CONFIG] has no [TOOLS] entry, so no model is loaded. *)
Definition init (cfg : Config) : t :=
  {| CONFIG := cfg; active_debates := []; model := None |}.

Definition set_debates (f : dict Debate -> dict Debate) : M t unit :=
  modify (fun s => mk (CONFIG s) (f (active_debates s)) (model s)).

(** [self.active_debates[debate_id]]. *)
Definition the_debate (debate_id : string) : M t Debate :=
  let* s := get in
  match dict_get debate_id (active_debates s) with
  | Some debate => ret debate
  | None => raise KeyError
  end.

Definition config : M t Config := let* s := get in ret (CONFIG s).

Section Methods.
(** [dot(a, b) / (norm(a) * norm(b))]. *)
Variable cosine : Vec -> Vec -> Q.

Definition _check_consensus (responses : list Stored)
    : M t (bool * option Stored) :=
  if (length responses <=? 1)%nat then
    let* first := lift_result (py_index responses 0) in
    ret (true, Some first)
  else
    let* s := get in
    let threshold := (1 - CONSENSUS_THRESHOLD (CONFIG s))%Q in
    let similar_count :=
      match model s with
      | Some encode =>
          let contents := List.map r_content responses in
          let embeddings := List.map encode contents in
          count_pairs (fun e1 e2 => Qgtb (cosine e1 e2) threshold)
            embeddings
      | None =>
          count_pairs
            (fun r1 r2 =>
               Qgtb (_text_similarity (r_content r1) (r_content r2))
                 threshold)
            responses
      end in
    let n := Z.of_nat (length responses) in
    let required_similar := (inject_Z (n * (n - 1)) / 2)%Q in
    if Qgtb (inject_Z similar_count / required_similar) (8 # 10) then
      let* highest_conf := lift_result (py_max r_confidence responses) in
      ret (true, Some highest_conf)
    else ret (false, None).

Definition _check_strong_confidence (responses : list Stored)
    : M t (bool * option Stored) :=
  if (length responses <=? 1)%nat then
    let* first := lift_result (py_index responses 0) in
    ret (true, Some first)
  else
    let sorted_resps := py_sorted_desc r_confidence responses in
    let* highest := lift_result (py_index sorted_resps 0) in
    let* second := lift_result (py_index sorted_resps 1) in
    let* cfg := config in
    if Qgtb (r_confidence highest - r_confidence second)
         (CONFIDENCE_THRESHOLD cfg)
    then ret (true, Some highest)
    else ret (false, None).

(** The loop that looks for the oldest completed debate. *)
Fixpoint oldest_completed (items : dict Debate)
    (oldest_debate : option string) (oldest_time : option Z)
    : option string :=
  match items with
  | [] => oldest_debate
  | (d_id, debate) :: rest =>
      match status debate with
      | completed =>
          if match oldest_time with
             | None => true
             | Some t0 => start_time debate <? t0
             end
          then oldest_completed rest (Some d_id) (Some (start_time debate))
          else oldest_completed rest oldest_debate oldest_time
      | active => oldest_completed rest oldest_debate oldest_time
      end
  end.

(** The cleanup that ends final arbitration. *)
Definition cleanup : M t unit :=
  let* s := get in
  let* cfg := config in
  if MAX_HISTORY_SIZE cfg <? Z.of_nat (length (active_debates s)) then
    match oldest_completed (active_debates s) None None with
    | Some oldest_debate =>
        if String.eqb oldest_debate "" then ret tt
        else set_debates (dict_del oldest_debate)
    | None => ret tt
    end
  else ret tt.

Definition _perform_final_arbitration (now : Z) (debate_id : string)
    (round_num : Z) (responses : list Stored) : M t unit :=
  let sorted_responses := py_sorted_desc r_confidence responses in
  let* winner := lift_result (py_index sorted_responses 0) in
  let* dissenting_view :=
    (if (1 <? length sorted_responses)%nat then
       let* second := lift_result (py_index sorted_responses 1) in
       ret (Some {| dis_agent := r_agent second;
                    dis_content := r_content second;
                    dis_confidence := r_confidence second |})
     else ret None) in
  let signal :=
    _generate_signal now "conclude" agent_name
      [Lit "Final decision: "; Str (r_agent winner);
       Lit " wins with confidence "; Float (r_confidence winner)]
      (Some "final_decision") in
  emit (WsSend (PSignal signal));;
  let result :=
    {| out_debate_id := debate_id;
       out_round := round_num;
       out_status := "concluded";
       out_content := r_content winner;
       out_confidence := r_confidence winner;
       out_winning_agent := Some (r_agent winner);
       out_contributing_agents := List.map r_agent responses;
       out_dissenting_view := dissenting_view;
       out_timestamp := now |} in
  let* cfg := config in
  emit (RedisPublish (REDIS_CHANNEL_ARB cfg) (POutcome result));;
  let* debate := the_debate debate_id in
  set_debates (dict_set debate_id
    {| rounds := rounds debate; status := completed;
       start_time := start_time debate |});;
  cleanup.

Definition _perform_arbitration (now : Z) (debate_id : string)
    (round_num : Z) (responses : list Stored) : M t unit :=
  let* '(consensus, consensus_response) := _check_consensus responses in
  if consensus then
    let signal :=
      _generate_signal now "arbitration" agent_name
        [Lit "Consensus reached in round "; Int round_num]
        (Some "consensus") in
    emit (WsSend (PSignal signal));;
    match consensus_response with
    | None => raise TypeError
    | Some chosen =>
        let result :=
          {| out_debate_id := debate_id;
             out_round := round_num;
             out_status := "consensus";
             out_content := r_content chosen;
             out_confidence := r_confidence chosen;
             out_winning_agent := None;
             out_contributing_agents := List.map r_agent responses;
             out_dissenting_view := None;
             out_timestamp := now |} in
        let* cfg := config in
        emit (RedisPublish (REDIS_CHANNEL_ARB cfg) (POutcome result))
    end
  else
    let* '(strong_conf, high_conf_response) :=
      _check_strong_confidence responses in
    let* cfg := config in
    if (MIN_DEBATE_ROUNDS cfg <=? round_num) && strong_conf then
      let signal :=
        _generate_signal now "arbitration" agent_name
          [Lit "Strong confidence differential in round "; Int round_num]
          (Some "strong_confidence") in
      emit (WsSend (PSignal signal));;
      match high_conf_response with
      | None => raise TypeError
      | Some chosen =>
          let result :=
            {| out_debate_id := debate_id;
               out_round := round_num;
               out_status := "strong_confidence";
               out_content := r_content chosen;
               out_confidence := r_confidence chosen;
               out_winning_agent := None;
               out_contributing_agents := [r_agent chosen];
               out_dissenting_view := None;
               out_timestamp := now |} in
          emit (RedisPublish (REDIS_CHANNEL_ARB cfg) (POutcome result))
      end
    else if MAX_DEBATE_ROUNDS cfg <=? round_num then
      _perform_final_arbitration now debate_id round_num responses
    else
      let signal :=
        _generate_signal now "arbitration" agent_name
          [Lit "Continue to round "; Int (round_num + 1)]
          (Some "continue") in
      emit (WsSend (PSignal signal));;
      emit (RedisPublish (REDIS_CHANNEL_MOD cfg)
              (PContinue debate_id round_num (round_num + 1) now)).

Definition process_response (now : Z) (response : Response)
    (agent : string) : M t unit :=
  let debate_id := get_default (debate_id response) "default" in
  let round_num := get_default (round response) 0 in
  let* s := get in
  (if dict_mem debate_id (active_debates s) then ret tt
   else set_debates (dict_set debate_id
          {| rounds := ∅; status := active; start_time := now |}));;
  let* debate := the_debate debate_id in
  (match rounds debate !! round_num with
   | Some _ => ret tt
   | None =>
       set_debates (dict_set debate_id
         {| rounds := <[round_num := []]> (rounds debate);
            status := status debate; start_time := start_time debate |})
   end);;
  let* debate := the_debate debate_id in
  let* filed :=
    match rounds debate !! round_num with
    | Some filed => ret filed
    | None => raise KeyError
    end in
  let responses :=
    filed ++ [{| r_agent := agent;
                 r_content := get_default (content response) "";
                 r_confidence := get_default (confidence response) (7 # 10);
                 r_reasoning := get_default (reasoning response) "";
                 r_timestamp := now |}] in
  set_debates (dict_set debate_id
    {| rounds := <[round_num := responses]> (rounds debate);
       status := status debate; start_time := start_time debate |});;
  let* debate := the_debate debate_id in
  let elapsed := now - start_time debate in
  let* cfg := config in
  if (DEBATE_TIMEOUT cfg * 1000000 <? elapsed)
     && (0 <? length responses)%nat
  then _perform_final_arbitration now debate_id round_num responses
  else if (3 <=? length responses)%nat
  then _perform_arbitration now debate_id round_num responses
  else ret tt.

(** [max(d.keys())] for the rounds of a debate. *)
Definition latest_round (rnds : gmap Z (list Stored)) : result Z :=
  match List.map fst (map_to_list rnds) with
  | [] => Raise ValueError
  | k :: ks => Ok (fold_left Z.max ks k)
  end.

(** [process_moderation]: [state] and the [debate_id] of [data]. *)
Definition process_moderation (now : Z) (state : string)
    (data_debate_id : option string) : M t unit :=
  if String.eqb state "deadlock" then
    let* cfg := config in
    let confidence_threshold :=
      (CONFIDENCE_THRESHOLD cfg * (6 # 10))%Q in
    let signal :=
      _generate_signal now "arbitration" agent_name
        [Lit "Adjusting confidence threshold to break deadlock"]
        (Some "threshold_adjusted") in
    emit (WsSend (PSignal signal))
  else if String.eqb state "loop_detected" then
    let* cfg := config in
    let consensus_threshold := (CONSENSUS_THRESHOLD cfg * 2)%Q in
    let signal :=
      _generate_signal now "arbitration" agent_name
        [Lit "Forcing decision to break loop"]
        (Some "forcing_decision") in
    emit (WsSend (PSignal signal))
  else if String.eqb state "conclude" then
    let debate_id := get_default data_debate_id "default" in
    let* s := get in
    match dict_get debate_id (active_debates s) with
    | Some debate =>
        let* latest := lift_result (latest_round (rounds debate)) in
        let* responses :=
          match rounds debate !! latest with
          | Some filed => ret filed
          | None => raise KeyError
          end in
        _perform_final_arbitration now debate_id latest responses
    | None => ret tt
    end
  else ret tt.

End Methods.

End ClaudeAgent.

(** * The response cache around model calls *)

(** What [client.post] comes back with: a status and a JSON body, or an
    exception (timeout, transport). *)
Inductive http_reply (Json : Type) : Type :=
  | Status (code : Z) (body : Json)
  | Failure.
Arguments Status {Json} code body.
Arguments Failure {Json}.

(** Redis as one agent sees it, with the wall clock in seconds and the
    model endpoint as the replies it will give, in order. A key holds a
    value and the instant it expires at, if any. *)
Record Net (Json : Type) : Type := mkNet {
  redis : gmap string (string * option Z);
  clock : Z;
  pending : list (http_reply Json);
  posts : Z
}.
Arguments mkNet {Json} redis clock pending posts.
Arguments redis {Json} n.
Arguments clock {Json} n.
Arguments pending {Json} n.
Arguments posts {Json} n.

Section Cache.
(** The request and response values, their JSON text, and the built-ins
    [hash] and [str] of the running interpreter. *)
Variable Messages : Type.
Variable Json : Type.
Variable dumps_messages : Messages -> string.
Variable dumps : Json -> string.
Variable loads : string -> Json.
Variable hash : string -> Z.
Variable str : Z -> string.
Variable cfg : Config.

(** [redis_client.get(key)]: the value, unless the key is missing or
    expired. *)
Definition redis_get (key : string) : M (Net Json) (option string) :=
  let* w := get in
  match redis w !! key with
  | Some (value, Some expires) =>
      if clock w <? expires then ret (Some value) else ret None
  | Some (value, None) => ret (Some value)
  | None => ret None
  end.

(** [redis_client.set(key, value, ex=ttl)]. *)
Definition redis_set (key value : string) (ttl : Z) : M (Net Json) unit :=
  modify (fun w =>
    mkNet (<[key := (value, Some (clock w + ttl))]> (redis w))
          (clock w) (pending w) (posts w)).

(** [await asyncio.sleep(seconds)]. *)
Definition sleep (seconds : Z) : M (Net Json) unit :=
  modify (fun w => mkNet (redis w) (clock w + seconds) (pending w) (posts w)).

(** [await client.post(...)]: one model call. *)
Definition post : M (Net Json) (http_reply Json) :=
  let* w := get in
  match pending w with
  | [] => put (mkNet (redis w) (clock w) [] (posts w + 1));; ret Failure
  | reply :: rest =>
      put (mkNet (redis w) (clock w) rest (posts w + 1));; ret reply
  end.

(** [f"cache:{self.agent_name}:{query_hash}"]. *)
Definition cache_key (agent_name : string) (messages : Messages) : string :=
  let query_content := dumps_messages messages in
  let query_hash := str (hash query_content) in
  String.append "cache:"
    (String.append agent_name (String.append ":" query_hash)).

(** [if cached_response:] on a [str] or [None]. *)
Definition truthy (cached : option string) : bool :=
  match cached with
  | Some EmptyString => false
  | Some _ => true
  | None => false
  end.

(** The retry loop of [call_claude_api]: [while retry_count < max_retries],
    each turn of which returns or adds one to [retry_count]; [turns] bounds
    the turns left. *)
Fixpoint retry_loop (agent_name : string) (messages : Messages)
    (turns : nat) (retry_count : Z) : M (Net Json) (option Json) :=
  match turns with
  | O => ret None
  | S turns' =>
      if retry_count <? 3 then
        let* reply := post in
        match reply with
        | Status code body =>
            if code =? 200 then
              (if CACHING_ENABLED cfg
               then redis_set (cache_key agent_name messages) (dumps body)
                      (CACHE_TTL cfg)
               else ret tt);;
              ret (Some body)
            else if code =? 429 then
              let retry_count := retry_count + 1 in
              let wait_time := 2 ^ retry_count in
              sleep wait_time;;
              retry_loop agent_name messages turns' retry_count
            else ret None
        | Failure =>
            let retry_count := retry_count + 1 in
            if 3 <=? retry_count then ret None
            else
              sleep 1;;
              retry_loop agent_name messages turns' retry_count
        end
      else ret None
  end.

(** [ClaudeAgent.call_claude_api]. *)
Definition call_claude_api (messages : Messages) : M (Net Json) (option Json) :=
  let* cached_response :=
    (if CACHING_ENABLED cfg
     then redis_get (cache_key ClaudeAgent.agent_name messages)
     else ret None) in
  if CACHING_ENABLED cfg && truthy cached_response then
    match cached_response with
    | Some cached => ret (Some (loads cached))
    | None => ret None
    end
  else retry_loop ClaudeAgent.agent_name messages 3 0.

(** [GPTAgent.call_gpt_api]; the agent's name is ["GPT-4o"]. *)
Definition call_gpt_api (messages : Messages) : M (Net Json) (option Json) :=
  let cache_enabled := CACHING_ENABLED cfg in
  let* cached_response :=
    (if cache_enabled then redis_get (cache_key "GPT-4o" messages)
     else ret None) in
  if cache_enabled && truthy cached_response then
    match cached_response with
    | Some cached => ret (Some (loads cached))
    | None => ret None
    end
  else
    let* response := post in
    match response with
    | Failure => raise TransportError
    | Status code response_data =>
        if negb (code =? 200) then ret None
        else
          (if cache_enabled
           then redis_set (cache_key "GPT-4o" messages) (dumps response_data)
                  3600
           else ret tt);;
          ret (Some response_data)
    end.

End Cache.

(** * The agent runtime: [base_agent.py] *)

Module BaseAgent.

(** The body of [_listen_responses]' loop runs under [except Exception]: an
    exception a handler raises is logged and the loop goes on, with whatever
    the handler had done by then. *)
Definition swallow {S : Type} (m : M S unit) : M S unit :=
  fun s =>
    match m s with
    | (Raise _, s1, ev) => (Ok tt, s1, ev)
    | r => r
    end.

(** The dict the refiner publishes on the responses channel. *)
Record Refined : Type := {
  ref_debate_id : string;
  ref_round : Z;
  ref_agent : string;
  ref_content : string;
  ref_confidence : Q;
  ref_reasoning : string;
  ref_timestamp : Z
}.

(** The decoded [data] of a bus message: a dict one of the agents
    published, the refiner's dict, or the envelope of a responder,
    [{"response": {...}, "agent": ...}] with or without its [agent]. *)
Inductive wire : Type :=
  | Published (p : payload)
  | FromRefiner (o : Refined)
  | Envelope (response : Response) (agent : option string).

(** [data.get("response", "")]: [None] stands for the default, a [str]. *)
Definition wire_response (data : wire) : option Response :=
  match data with
  | Envelope response _ => Some response
  | _ => None
  end.

(** [data.get("agent", "unknown")]. *)
Definition wire_agent (data : wire) : string :=
  match data with
  | Envelope _ agent => get_default agent "unknown"
  | FromRefiner o => ref_agent o
  | Published _ => "unknown"
  end.

(** [data.get("state", "")]: of the dicts above only the signals of
    [_generate_signal] and of [next_turn] have a [state]. *)
Definition wire_state (data : wire) : string :=
  match data with
  | Published (PSignal sg) => sig_state sg
  | Published (PTurn state _ _) => state
  | _ => ""
  end.

(** [data.get("debate_id", "default")], before the default. *)
Definition wire_debate_id (data : wire) : option string :=
  match data with
  | Published (POutcome o) => Some (out_debate_id o)
  | Published (PContinue debate_id _ _ _) => Some debate_id
  | FromRefiner o => Some (ref_debate_id o)
  | _ => None
  end.

(** [if state:] on a [str]. *)
Definition nonempty (text : string) : bool :=
  match text with EmptyString => false | _ => true end.

Section Listener.
Context {S : Type}.
Variable cfg : Config.
(** The agent's handlers; [process_response] gets [None] for the [str]
    default of a message without a [response]. *)
Variable process_response : option Response -> string -> M S unit.
Variable process_moderation : string -> wire -> M S unit.

(** One message through [_listen_responses]. *)
Definition _listen_responses (channel : string) (data : wire) : M S unit :=
  swallow
    (if String.eqb channel (REDIS_CHANNEL_RES cfg) then
       let response := wire_response data in
       let agent := wire_agent data in
       process_response response agent
     else if String.eqb channel (REDIS_CHANNEL_MOD cfg) then
       let state := wire_state data in
       if nonempty state then process_moderation state data else ret tt
     else ret tt).

End Listener.

(** What an agent's output amounts to for another agent's listener: each
    [redis.publish] is a message on its channel, in order; what goes to
    the websocket or into a keyed slot is not read by any listener. *)
Fixpoint deliver {S : Type} (listen : string -> wire -> M S unit)
    (output : list event) : M S unit :=
  match output with
  | [] => ret tt
  | RedisPublish channel p :: rest =>
      listen channel (Published p);; deliver listen rest
  | _ :: rest => deliver listen rest
  end.

(** One firing of [_timeout_monitor], for the agent named [agent_name]. *)
Definition timeout_signal (now : Z) (agent_name : string) : Signal :=
  _generate_signal now "timeout" agent_name
    [Lit (String.append "Debate timeout reached"
            (String.append em_dash "forcing conclusion"))]
    (Some "timeout").

Definition _timeout_monitor {S : Type} (cfg : Config) (now : Z)
    (agent_name : string) : M S unit :=
  let signal := timeout_signal now agent_name in
  emit (WsSend (PSignal signal));;
  emit (RedisPublish (REDIS_CHANNEL_MOD cfg) (PSignal signal)).

End BaseAgent.

(** The handlers as the listener calls them: a [response] that is a [str]
    has no [get]. *)
Module Handlers.

Definition moderator_response (cfg : Config) (cos_sim : Vec -> Vec -> Q)
    (now : Z) (response : option Response) (agent : string)
    : M GrokAgent.t unit :=
  match response with
  | Some response => GrokAgent.process_response cfg cos_sim now response agent
  | None => raise (AttributeError "str" "get")
  end.

Definition moderator_moderation (state : string) (data : BaseAgent.wire)
    : M GrokAgent.t unit :=
  GrokAgent.process_moderation state.

Definition arbiter_response (cosine : Vec -> Vec -> Q) (now : Z)
    (response : option Response) (agent : string) : M ClaudeAgent.t unit :=
  match response with
  | Some response => ClaudeAgent.process_response cosine now response agent
  | None => raise (AttributeError "str" "get")
  end.

Definition arbiter_moderation (now : Z) (state : string)
    (data : BaseAgent.wire) : M ClaudeAgent.t unit :=
  ClaudeAgent.process_moderation now state (BaseAgent.wire_debate_id data).

(** The moderator's and the arbiter's listeners. The arbiter reads its
    channel names from its own [CONFIG]. *)
Definition moderator_listens (cfg : Config) (cos_sim : Vec -> Vec -> Q)
    (now : Z) (channel : string) (data : BaseAgent.wire)
    : M GrokAgent.t unit :=
  BaseAgent._listen_responses cfg (moderator_response cfg cos_sim now)
    moderator_moderation channel data.

Definition arbiter_listens (cosine : Vec -> Vec -> Q) (now : Z)
    (channel : string) (data : BaseAgent.wire) : M ClaudeAgent.t unit :=
  let* s := get in
  BaseAgent._listen_responses (ClaudeAgent.CONFIG s)
    (arbiter_response cosine now) (arbiter_moderation now) channel data.

End Handlers.

(** * Running computations *)

Lemma run_bind {S A B : Type} (m : M S A) (k : A -> M S B) (s : S)
    (a : A) (s1 : S) (ev1 : list event)
    (r : result B) (s2 : S) (ev2 evs : list event) :
  m s = (Ok a, s1, ev1) ->
  k a s1 = (r, s2, ev2) ->
  evs = ev1 ++ ev2 ->
  bind m k s = (r, s2, evs).
Proof.
  intros Hm Hk ->. unfold bind. rewrite Hm, Hk. reflexivity.
Qed.

Lemma run_bind_raise {S A B : Type} (m : M S A) (k : A -> M S B) (s : S)
    (e : exn) (s1 : S) (ev1 : list event) :
  m s = (Raise e, s1, ev1) ->
  bind m k s = (Raise e, s1, ev1).
Proof.
  intros Hm. unfold bind. rewrite Hm. reflexivity.
Qed.

Lemma run_bind_silent {S A B : Type} (m : M S A) (k : A -> M S B) (s : S)
    (a : A) (s1 : S) :
  m s = (Ok a, s1, []) ->
  bind m k s = k a s1.
Proof.
  intros Hm. unfold bind. rewrite Hm.
  destruct (k a s1) as [[r s2] ev2]. reflexivity.
Qed.

Lemma run_zoom {S T A : Type} (proj : S -> T) (upd : T -> S -> S)
    (m : M T A) (s : S) (r : result A) (t : T) (ev : list event) :
  m (proj s) = (r, t, ev) ->
  zoom proj upd m s = (r, upd t s, ev).
Proof.
  intros Hm. unfold zoom. rewrite Hm. reflexivity.
Qed.

(** Step through a chain of binds whose steps all return: [norm] rewrites
    the goal before each step (known tests, projections), [tac] closes the
    steps that are calls of methods with a run lemma. *)
Ltac mrun_with norm tac :=
  norm;
  lazymatch goal with
  | |- bind _ _ _ = _ =>
      eapply run_bind;
      [ mrun_with norm tac | cbv beta iota; mrun_with norm tac | reflexivity ]
  | |- zoom _ _ _ _ = _ =>
      first [ reflexivity | eapply run_zoom; mrun_with norm tac ]
  | |- _ => first [ reflexivity | tac ]
  end.

Ltac mrun tac := mrun_with idtac tac.

(** * Properties of the state machine *)

Lemma py_index_nth {A : Type} (d : A) (l : list A) (i : Z) :
  0 <= i < Z.of_nat (length l) ->
  py_index l i = Ok (nth (Z.to_nat i) l d).
Proof.
  intros Hi. unfold py_index.
  destruct (Z.ltb_spec i 0) as [Hneg|_]; [lia|].
  destruct (Z.leb_spec 0 i) as [_|Hneg]; [|lia].
  destruct (Z.ltb_spec i (Z.of_nat (length l))) as [_|Hge]; [|lia].
  cbn [andb].
  destruct (nth_error l (Z.to_nat i)) as [x|] eqn:E.
  - f_equal. symmetry. apply nth_error_nth. exact E.
  - apply nth_error_None in E. lia.
Qed.

Module DSMFacts.
Import DebateStateMachine.

Definition phase_name (i : Z) : string := nth (Z.to_nat i) states "".
Definition speaker_name (i : Z) : string := nth (Z.to_nat i) speakers "".

(** The state [next_turn] leaves behind. *)
Definition turned (s : t) : t :=
  let i := (state_idx s + 1) mod 4 in
  {| state_idx := i;
     current_speaker_idx := (current_speaker_idx s + 1) mod 3;
     turns_since_progress :=
       if 0 <? i then 0 else turns_since_progress s + 1;
     sentence_model := sentence_model s |}.

Lemma current_state_run (s : t) :
  0 <= state_idx s < 4 ->
  current_state s = (Ok (phase_name (state_idx s)), s, []).
Proof.
  intros H. unfold current_state, bind, get, lift_result.
  rewrite (py_index_nth "" states (state_idx s)) by (cbn; lia).
  reflexivity.
Qed.

Lemma current_speaker_run (s : t) :
  0 <= current_speaker_idx s < 3 ->
  current_speaker s = (Ok (speaker_name (current_speaker_idx s)), s, []).
Proof.
  intros H. unfold current_speaker, bind, get, lift_result.
  rewrite (py_index_nth "" speakers (current_speaker_idx s)) by (cbn; lia).
  reflexivity.
Qed.

Lemma next_turn_run (cfg : Config) (message : string) (s : t) :
  next_turn cfg message s =
    (Ok tt, turned s,
     [RedisSet "debate_state" (phase_name (state_idx (turned s)));
      RedisSet "current_speaker"
        (speaker_name (current_speaker_idx (turned s)));
      RedisPublish (REDIS_CHANNEL_MOD cfg)
        (PTurn (phase_name (state_idx (turned s)))
               (speaker_name (current_speaker_idx (turned s)))
               "next_turn")]).
Proof.
  assert (Hp : 0 <= state_idx (turned s) < 4)
    by (cbn; apply Z.mod_pos_bound; lia).
  assert (Hs : 0 <= current_speaker_idx (turned s) < 3)
    by (cbn; apply Z.mod_pos_bound; lia).
  pose proof (current_state_run (turned s) Hp) as Ep.
  pose proof (current_speaker_run (turned s) Hs) as Es.
  unfold next_turn, _rotate_speaker.
  mrun ltac:(first [exact Ep | exact Es]).
Qed.

End DSMFacts.

(** * Claims on the state machine *)

Module DSMClaims.
Import DebateStateMachine DSMFacts.

(** [next_turn] once per message, in order. *)
Fixpoint turns (cfg : Config) (messages : list string) : M t unit :=
  match messages with
  | [] => ret tt
  | message :: rest => next_turn cfg message;; turns cfg rest
  end.

Lemma turns_state (cfg : Config) (messages : list string) (s : t) :
  0 <= state_idx s < 4 ->
  0 <= current_speaker_idx s < 3 ->
  let k := Z.of_nat (length messages) in
  let s' := final_state (turns cfg messages s) in
  outcome (turns cfg messages s) = Ok tt /\
  state_idx s' = (state_idx s + k) mod 4 /\
  current_speaker_idx s' = (current_speaker_idx s + k) mod 3.
Proof.
  revert s. induction messages as [|m rest IH]; intros s Hp Hs.
  - cbn. rewrite !Z.add_0_r, !Z.mod_small by lia. auto.
  - cbn zeta. cbn [turns].
    assert (Hp' : 0 <= state_idx (turned s) < 4)
      by (cbn; apply Z.mod_pos_bound; lia).
    assert (Hs' : 0 <= current_speaker_idx (turned s) < 3)
      by (cbn; apply Z.mod_pos_bound; lia).
    destruct (IH (turned s) Hp' Hs') as (Ho & Ei & Es).
    unfold bind. rewrite next_turn_run.
    destruct (turns cfg rest (turned s)) as [[r s2] ev2] eqn:E.
    unfold outcome, final_state in *. cbn [fst snd] in *.
    split; [exact Ho|].
    rewrite Ei, Es. cbn [turned state_idx current_speaker_idx].
    rewrite !Z.add_mod_idemp_l by lia.
    split; f_equal; cbn [length]; lia.
Qed.

(** C3. [next_turn] moves phase and speaker one step forward together,
    modulo 4 and modulo the number of roles, and the stagnation counter
    becomes 0 when the new phase index is positive and grows by one when
    the phase wrapped to [propose]; after [k] turns from the initial state
    the phase is the [k mod 4]-th phase and the speaker the [k mod 3]-th
    role. *)
Theorem next_turn_lockstep (cfg : Config) :
  (forall (s : t) (message : string),
     let r := next_turn cfg message s in
     outcome r = Ok tt /\
     state_idx (final_state r) = (state_idx s + 1) mod 4 /\
     current_speaker_idx (final_state r)
       = (current_speaker_idx s + 1) mod Z.of_nat (length speakers) /\
     turns_since_progress (final_state r)
       = (if 0 <? state_idx (final_state r) then 0
          else turns_since_progress s + 1) /\
     sentence_model (final_state r) = sentence_model s) /\
  (forall messages : list string,
     let k := Z.of_nat (length messages) in
     let s := final_state (turns cfg messages init) in
     state_idx s = k mod 4 /\
     current_speaker_idx s = k mod Z.of_nat (length speakers) /\
     outcome (current_state s) = Ok (nth (Z.to_nat (k mod 4)) states "") /\
     outcome (current_speaker s)
       = Ok (nth (Z.to_nat (k mod 3)) speakers "")).
Proof.
  split.
  - intros s message r. subst r. rewrite next_turn_run.
    cbn. repeat split; reflexivity.
  - intros messages k s.
    destruct (turns_state cfg messages init) as (_ & Ei & Es);
      [cbn; lia | cbn; lia |].
    fold k in Ei, Es. fold s in Ei, Es.
    change (state_idx init) with 0 in Ei.
    change (current_speaker_idx init) with 0 in Es.
    rewrite Z.add_0_l in Ei, Es.
    change (Z.of_nat (length speakers)) with 3.
    assert (Hp : 0 <= state_idx s < 4)
      by (rewrite Ei; apply Z.mod_pos_bound; lia).
    assert (Hs : 0 <= current_speaker_idx s < 3)
      by (rewrite Es; apply Z.mod_pos_bound; lia).
    repeat split; try assumption.
    + rewrite current_state_run by exact Hp.
      unfold outcome, phase_name. cbn [fst]. rewrite Ei. reflexivity.
    + rewrite current_speaker_run by exact Hs.
      unfold outcome, speaker_name. cbn [fst]. rewrite Es. reflexivity.
Qed.

(** ** Loop detection *)

Lemma py_index_last {A : Type} (pre : list A) (b a : A) :
  py_index (pre ++ [b; a]) (-1) = Ok a /\
  py_index (pre ++ [b; a]) (-2) = Ok b.
Proof.
  unfold py_index.
  rewrite length_app. cbn [length].
  set (n := length pre).
  destruct (Z.ltb_spec (-1) 0) as [_|?]; [|lia].
  destruct (Z.ltb_spec (-2) 0) as [_|?]; [|lia].
  destruct (Z.leb_spec 0 (-1 + Z.of_nat (n + 2))) as [_|?]; [|lia].
  destruct (Z.leb_spec 0 (-2 + Z.of_nat (n + 2))) as [_|?]; [|lia].
  destruct (Z.ltb_spec (-1 + Z.of_nat (n + 2)) (Z.of_nat (n + 2)))
    as [_|?]; [|lia].
  destruct (Z.ltb_spec (-2 + Z.of_nat (n + 2)) (Z.of_nat (n + 2)))
    as [_|?]; [|lia].
  cbn [andb].
  replace (Z.to_nat (-1 + Z.of_nat (n + 2))) with (n + 1)%nat by lia.
  replace (Z.to_nat (-2 + Z.of_nat (n + 2))) with (n + 0)%nat by lia.
  subst n.
  rewrite !nth_error_app2 by lia.
  replace (length pre + 1 - length pre)%nat with 1%nat by lia.
  replace (length pre + 0 - length pre)%nat with 0%nat by lia.
  split; reflexivity.
Qed.

(** With an encoder on the instance, the verdict depends on the last two
    entries only. *)
Lemma detect_loop_with_model (cos_sim : Vec -> Vec -> Q) (encode : Encoder)
    (s : t) (pre : list string) (b a : string) :
  sentence_model s = Some encode ->
  detect_loop cos_sim (pre ++ [b; a]) s
    = (Ok (Qgtb (cos_sim (encode a) (encode b)) (87 # 100)), s, []).
Proof.
  intros Hm. unfold detect_loop.
  destruct (Nat.ltb_spec (length (pre ++ [b; a])) 2) as [Hlt|_].
  { rewrite length_app in Hlt. cbn in Hlt. lia. }
  destruct (py_index_last pre b a) as [E1 E2].
  unfold bind at 1. unfold get at 1. rewrite Hm.
  unfold bind, lift_result. rewrite E1, E2. reflexivity.
Qed.

(** Without one, any history of two entries or more raises. *)
Lemma detect_loop_no_model (cos_sim : Vec -> Vec -> Q) (s : t)
    (history : list string) :
  sentence_model s = None ->
  (2 <= length history)%nat ->
  detect_loop cos_sim history s
    = (Raise (AttributeError "DebateStateMachine" "sentence_model"), s, []).
Proof.
  intros Hm Hlen. unfold detect_loop.
  destruct (Nat.ltb_spec (length history) 2) as [Hlt|_]; [lia|].
  unfold bind, get. rewrite Hm. reflexivity.
Qed.

Lemma detect_loop_short (cos_sim : Vec -> Vec -> Q) (s : t)
    (history : list string) :
  (length history < 2)%nat ->
  detect_loop cos_sim history s = (Ok false, s, []).
Proof.
  intros Hlen. unfold detect_loop.
  destruct (Nat.ltb_spec (length history) 2) as [_|Hge]; [|lia].
  reflexivity.
Qed.


(** ** Deadlock detection and the kill switch *)

Definition kill_switch_log (history : list string) : string :=
  String.append "Grok: Kill switch"
    (String.append em_dash
       (String.append "reset: "
          (String.append "Deadlock detected. Summary: "
             (join " | " (py_suffix 3 history))))).

Lemma kill_switch_run (s : t) (history : list string) :
  kill_switch history s =
    (Ok (PFlag "kill_switch" (kill_switch_log history)),
     {| state_idx := 0;
        current_speaker_idx := current_speaker_idx s;
        turns_since_progress := 0;
        sentence_model := sentence_model s |},
     []).
Proof. reflexivity. Qed.

Lemma detect_deadlock_run (s : t) :
  detect_deadlock s = (Ok (3 <=? turns_since_progress s), s, []).
Proof. reflexivity. Qed.

Lemma py_suffix_last3 {A : Type} (pre : list A) (a b c : A) :
  py_suffix 3 (pre ++ [a; b; c]) = [a; b; c].
Proof.
  unfold py_suffix. rewrite length_app. cbn [length].
  replace (length pre + 3 - 3)%nat with (length pre + 0)%nat by lia.
  rewrite skipn_app, Nat.add_0_r, skipn_all.
  replace (length pre - length pre)%nat with 0%nat by lia.
  reflexivity.
Qed.

Lemma py_suffix_short {A : Type} (l : list A) :
  (length l <= 3)%nat -> py_suffix 3 l = l.
Proof.
  intros H. unfold py_suffix.
  replace (length l - 3)%nat with 0%nat by lia. reflexivity.
Qed.

(** C10. [kill_switch] resets the phase and the stagnation counter and
    leaves the speaker index as it was, for every state and history; the
    next turn then moves on from that speaker. *)
Theorem kill_switch_keeps_speaker (cfg : Config) (s : t)
    (history : list string) (message : string) :
  let s' := final_state (kill_switch history s) in
  current_speaker_idx s' = current_speaker_idx s /\
  sentence_model s' = sentence_model s /\
  state_idx s' = 0 /\
  turns_since_progress s' = 0 /\
  current_speaker_idx (final_state (next_turn cfg message s'))
    = (current_speaker_idx s + 1) mod Z.of_nat (length speakers).
Proof.
  cbn zeta. rewrite kill_switch_run. unfold final_state. cbn [fst snd].
  rewrite next_turn_run. cbn. repeat split; reflexivity.
Qed.

End DSMClaims.

(** * Properties of the moderator *)

Module GrokFacts.
Import GrokAgent.
Import DSMFacts DSMClaims.

Section Paths.
Variable cfg : Config.
Variable cos_sim : Vec -> Vec -> Q.
Variable now : Z.
Variable response : Response.
Variable agent : string.
Variable s : t.

Let text_in : string := get_default (content response) "".
Let history' : list string := remember cfg (history s) text_in.
Let sm : DSM.t := state_machine s.

(** The signal sent on receipt, before any detection. *)
Definition receipt : event :=
  WsSend (PSignal (_generate_signal now
    (phase_name (DSM.state_idx (state_machine s)))
    (speaker_name (DSM.current_speaker_idx (state_machine s)))
    [Str (get_default (content response) "")] None)).

Hypothesis phase_ok : 0 <= DSM.state_idx sm < 4.
Hypothesis speaker_ok : 0 <= DSM.current_speaker_idx sm < 3.

Ltac norm_with H :=
  cbn [state_machine history sentence_model];
  rewrite ?H; cbv beta iota.

Ltac methods :=
  first [ apply current_state_run; assumption
        | apply current_speaker_run; assumption
        | apply next_turn_run
        | apply current_state_run; cbn; apply Z.mod_pos_bound; lia
        | apply current_speaker_run; cbn; apply Z.mod_pos_bound; lia ].

(** [detect_loop] raises: the exception leaves the handler after the
    history was extended and the receipt sent; the machine stays. *)
Lemma process_response_raises (e : exn) :
  DSM.detect_loop cos_sim history' sm = (Raise e, sm, []) ->
  process_response cfg cos_sim now response agent s
    = (Raise e, mk sm history' (sentence_model s), [receipt]).
Proof.
  intros Hloop. unfold process_response.
  eapply run_bind; [reflexivity | cbv beta iota | reflexivity].
  eapply run_bind;
    [unfold on_sm; eapply run_zoom; methods | cbv beta iota | reflexivity].
  eapply run_bind;
    [unfold on_sm; eapply run_zoom; methods | cbv beta iota | reflexivity].
  eapply run_bind; [reflexivity | cbv beta iota | reflexivity].
  eapply run_bind; [reflexivity | cbv beta iota | reflexivity].
  apply run_bind_raise.
  unfold on_sm.
  etransitivity; [eapply run_zoom; exact Hloop | reflexivity].
Qed.


(** No loop, deadlock detection enabled and the counter at 3 or more:
    [kill_switch], both sends, and no [next_turn]. *)
Lemma process_response_deadlock :
  DSM.detect_loop cos_sim history' sm = (Ok false, sm, []) ->
  ENABLE_DEADLOCK_DETECTION cfg = true ->
  3 <= DSM.turns_since_progress sm ->
  let signal := PFlag "kill_switch" (kill_switch_log history') in
  process_response cfg cos_sim now response agent s
    = (Ok tt,
       mk (DSM.mk 0 (DSM.current_speaker_idx sm) 0 (DSM.sentence_model sm))
          history' (sentence_model s),
       [receipt; WsSend signal;
        RedisPublish (REDIS_CHANNEL_MOD cfg) signal]).
Proof.
  intros Hloop Hen Hdead signal.
  apply Z.leb_le in Hdead.
  unfold process_response, on_sm. rewrite Hen.
  mrun_with ltac:(norm_with Hdead) ltac:(first [methods | exact Hloop]).
Qed.

(** No loop and no deadlock verdict: one [next_turn]. *)
Lemma process_response_next_turn :
  DSM.detect_loop cos_sim history' sm = (Ok false, sm, []) ->
  ENABLE_DEADLOCK_DETECTION cfg && (3 <=? DSM.turns_since_progress sm)
    = false ->
  process_response cfg cos_sim now response agent s
    = (Ok tt,
       mk (turned sm) history' (sentence_model s),
       [receipt;
        RedisSet "debate_state" (phase_name (DSM.state_idx (turned sm)));
        RedisSet "current_speaker"
          (speaker_name (DSM.current_speaker_idx (turned sm)));
        RedisPublish (REDIS_CHANNEL_MOD cfg)
          (PTurn (phase_name (DSM.state_idx (turned sm)))
             (speaker_name (DSM.current_speaker_idx (turned sm)))
             "next_turn");
        WsSend (PSignal (_generate_signal now
          (phase_name (DSM.state_idx (turned sm)))
          (speaker_name (DSM.current_speaker_idx (turned sm)))
          [Str agent; Lit " turn complete - next up."] None))]).
Proof.
  intros Hloop Hno.
  unfold process_response, on_sm.
  destruct (ENABLE_DEADLOCK_DETECTION cfg).
  - cbn [andb] in Hno.
    mrun_with ltac:(norm_with Hno) ltac:(first [methods | exact Hloop]).
  - mrun_with ltac:(norm_with Hno) ltac:(first [methods | exact Hloop]).
Qed.

End Paths.



End GrokFacts.

(** * Claims on the moderator *)

Module GrokClaims.
Import GrokAgent.
Import DSMFacts DSMClaims GrokFacts.

(** A stand-in embedding provider: every text maps to the same unit
    vector, every pair of vectors is fully similar. *)
Definition flat_encoder : Encoder := fun _ => [1%Q].
Definition flat_cos_sim : Vec -> Vec -> Q := fun _ _ => 1%Q.

Definition say (text : string) : Response :=
  {| debate_id := Some "d1"; round := Some 0; content := Some text;
     confidence := Some (7 # 10); reasoning := None |}.

(** C4. With two entries in the history, [detect_loop] on a state machine
    as [__init__] builds it raises [AttributeError]: it reads
    [self.sentence_model], which only the agent owns. The moderator built
    by [GrokAgent.__init__] handles its first response, and on the second
    the handler is left by that exception with the machine where the first
    turn put it. *)
Theorem detect_loop_attribute_error (cos_sim : Vec -> Vec -> Q)
    (encode : Encoder) :
  DSM.detect_loop cos_sim ["first answer"; "second answer"] DSM.init
    = (Raise (AttributeError "DebateStateMachine" "sentence_model"),
       DSM.init, []) /\
  let r1 := process_response default_config cos_sim 0
              (say "first answer") "GPT" (init encode) in
  let r2 := process_response default_config cos_sim 1
              (say "second answer") "GPT" (final_state r1) in
  outcome r1 = Ok tt /\
  outcome r2 = Raise (AttributeError "DebateStateMachine" "sentence_model") /\
  history (final_state r2) = ["first answer"; "second answer"] /\
  state_machine (final_state r2) = state_machine (final_state r1).
Proof.
  split; [reflexivity|]. cbv zeta.
  repeat split; reflexivity.
Qed.

(** C5. Deadlock is exactly a stagnation counter of 3 or more; the kill
    switch puts phase and counter back to 0 and reports the last three
    history entries under the flag [kill_switch]; and the moderator, with
    deadlock detection enabled and no loop found, answers a deadlock with
    that transition, sent on the stream and published for moderation. *)
Theorem deadlock_kill_switch (cfg : Config) (cos_sim : Vec -> Vec -> Q) :
  (forall d : DSM.t,
     outcome (DSM.detect_deadlock d) = Ok true
     <-> 3 <= DSM.turns_since_progress d) /\
  (forall (d : DSM.t) (pre : list string) (a b c : string),
     let r := DSM.kill_switch (pre ++ [a; b; c]) d in
     DSM.state_idx (final_state r) = 0 /\
     DSM.turns_since_progress (final_state r) = 0 /\
     outcome r = Ok (PFlag "kill_switch"
       (String.append "Grok: Kill switch"
         (String.append em_dash
           (String.append "reset: Deadlock detected. Summary: "
             (String.append a (String.append " | "
               (String.append b (String.append " | " c))))))))) /\
  (forall (now : Z) (response : Response) (agent : string) (s : t),
     let sm := state_machine s in
     let history' :=
       remember cfg (history s) (get_default (content response) "") in
     let r := process_response cfg cos_sim now response agent s in
     0 <= DSM.state_idx sm < 4 ->
     0 <= DSM.current_speaker_idx sm < 3 ->
     DSM.detect_loop cos_sim history' sm = (Ok false, sm, []) ->
     ENABLE_DEADLOCK_DETECTION cfg = true ->
     3 <= DSM.turns_since_progress sm ->
     outcome r = Ok tt /\
     DSM.state_idx (state_machine (final_state r)) = 0 /\
     DSM.turns_since_progress (state_machine (final_state r)) = 0 /\
     events r =
       [receipt now response s;
        WsSend (PFlag "kill_switch" (kill_switch_log history'));
        RedisPublish (REDIS_CHANNEL_MOD cfg)
          (PFlag "kill_switch" (kill_switch_log history'))]).
Proof.
  split; [|split].
  - intros d. rewrite detect_deadlock_run. unfold outcome. cbn [fst].
    split.
    + intros H. apply Z.leb_le. congruence.
    + intros H. apply Z.leb_le in H. rewrite H. reflexivity.
  - intros d pre a b c r. subst r. rewrite kill_switch_run.
    unfold final_state, outcome, kill_switch_log. cbn [fst snd DSM.state_idx
      DSM.turns_since_progress].
    rewrite py_suffix_last3.
    repeat split.
  - intros now response agent s sm history' r Hp Hs Hloop Hen Hdead.
    subst r.
    rewrite (process_response_deadlock cfg cos_sim now response agent s
               Hp Hs Hloop Hen Hdead).
    repeat split.
Qed.

(** A moderator whose machine sits at a stagnation counter of 3, with an
    empty history. *)
Definition stalled : t :=
  {| state_machine := DSM.mk 0 0 3 None; history := [];
     sentence_model := flat_encoder |}.

Lemma deadlock_kill_switch_witness :
  let r := process_response default_config flat_cos_sim 0
             (say "again") "GPT" stalled in
  outcome r = Ok tt /\
  DSM.state_idx (state_machine (final_state r)) = 0 /\
  DSM.turns_since_progress (state_machine (final_state r)) = 0 /\
  events r =
    [receipt 0 (say "again") stalled;
     WsSend (PFlag "kill_switch" (kill_switch_log ["again"]));
     RedisPublish "moderation_channel"
       (PFlag "kill_switch" (kill_switch_log ["again"]))].
Proof.
  apply (proj2 (proj2 (deadlock_kill_switch default_config flat_cos_sim))
           0 (say "again") "GPT" stalled).
  - cbn. lia.
  - cbn. lia.
  - reflexivity.
  - reflexivity.
  - cbn. lia.
Defined.

(** ** The order of the moderator's steps *)





End GrokClaims.

(** * Properties of dicts, maxima and sorting *)

Section DictFacts.
Context {V : Type}.
Implicit Types (d : dict V) (k : string) (v : V).

Lemma dict_get_set_eq k v d : dict_get k (dict_set k v d) = Some v.
Proof.
  induction d as [|[k' v'] rest IH]; cbn.
  - rewrite String.eqb_refl. reflexivity.
  - destruct (String.eqb k k') eqn:E; cbn; rewrite E; [reflexivity|exact IH].
Qed.

Lemma dict_get_set_ne k k' v d :
  k <> k' -> dict_get k' (dict_set k v d) = dict_get k' d.
Proof.
  intros Hne. induction d as [|[k0 v0] rest IH]; cbn.
  - destruct (String.eqb_spec k' k); [congruence|reflexivity].
  - destruct (String.eqb_spec k k0) as [->|Hk]; cbn.
    + destruct (String.eqb_spec k' k0); [congruence|reflexivity].
    + destruct (String.eqb_spec k' k0); [reflexivity|exact IH].
Qed.

Lemma dict_set_set k v1 v2 d :
  dict_set k v2 (dict_set k v1 d) = dict_set k v2 d.
Proof.
  induction d as [|[k' v'] rest IH]; cbn.
  - rewrite String.eqb_refl. reflexivity.
  - destruct (String.eqb k k') eqn:E; cbn; rewrite E; [reflexivity|].
    f_equal. exact IH.
Qed.

Lemma dict_set_keys_present k v v0 d :
  dict_get k d = Some v0 ->
  List.map fst (dict_set k v d) = List.map fst d.
Proof.
  induction d as [|[k' v'] rest IH]; cbn; [discriminate|].
  destruct (String.eqb k k') eqn:E; cbn; [reflexivity|].
  intros H. f_equal. exact (IH H).
Qed.

Lemma dict_set_keys_absent k v d :
  dict_get k d = None ->
  List.map fst (dict_set k v d) = List.map fst d ++ [k].
Proof.
  induction d as [|[k' v'] rest IH]; cbn; [reflexivity|].
  destruct (String.eqb k k') eqn:E; cbn; [discriminate|].
  intros H. f_equal. exact (IH H).
Qed.

Lemma dict_set_length_present k v v0 d :
  dict_get k d = Some v0 -> length (dict_set k v d) = length d.
Proof.
  intros H. rewrite <- (length_map fst), (dict_set_keys_present k v v0 d H).
  apply length_map.
Qed.

Lemma dict_get_In k v d : dict_get k d = Some v -> In (k, v) d.
Proof.
  induction d as [|[k' v'] rest IH]; cbn; [discriminate|].
  destruct (String.eqb_spec k k') as [->|Hne].
  - intros [= ->]. left. reflexivity.
  - intros H. right. exact (IH H).
Qed.

Lemma dict_get_None k d : dict_get k d = None -> ~ In k (List.map fst d).
Proof.
  induction d as [|[k' v'] rest IH]; cbn; [tauto|].
  destruct (String.eqb_spec k k') as [->|Hne]; [discriminate|].
  intros H [E|Hin]; [congruence|exact (IH H Hin)].
Qed.

Lemma dict_In_get k v d :
  NoDup (List.map fst d) -> In (k, v) d -> dict_get k d = Some v.
Proof.
  induction d as [|[k' v'] rest IH]; cbn; [tauto|].
  intros Hnd [E|Hin].
  - injection E as -> ->. rewrite String.eqb_refl. reflexivity.
  - apply NoDup_cons in Hnd. destruct Hnd as [Hnot Hnd].
    destruct (String.eqb_spec k k') as [->|Hne].
    + exfalso. apply Hnot. apply list_elem_of_In.
      apply (in_map fst) in Hin. exact Hin.
    + exact (IH Hnd Hin).
Qed.

Lemma dict_set_NoDup k v d :
  NoDup (List.map fst d) -> NoDup (List.map fst (dict_set k v d)).
Proof.
  intros Hnd. destruct (dict_get k d) as [v0|] eqn:E.
  - rewrite (dict_set_keys_present k v v0 d E). exact Hnd.
  - rewrite (dict_set_keys_absent k v d E).
    apply NoDup_app. split; [exact Hnd|]. split.
    + intros x Hin Hx. apply list_elem_of_In in Hx. cbn in Hx.
      destruct Hx as [<-|[]]. apply list_elem_of_In in Hin.
      exact (dict_get_None k d E Hin).
    + apply NoDup_singleton.
Qed.

(** Deleting a key takes out its entry and no other. *)
Lemma dict_del_In k d k' v' :
  In (k', v') (dict_del k d) -> In (k', v') d.
Proof.
  induction d as [|[k0 v0] rest IH]; cbn; [tauto|].
  destruct (String.eqb k k0); cbn; [tauto|].
  intros [E|H]; [left; exact E|right; exact (IH H)].
Qed.

Lemma dict_del_other k d k' v' :
  k <> k' -> In (k', v') d -> In (k', v') (dict_del k d).
Proof.
  intros Hne. induction d as [|[k0 v0] rest IH]; cbn; [tauto|].
  destruct (String.eqb_spec k k0) as [->|Hk]; cbn.
  - intros [E|H]; [congruence|exact H].
  - intros [E|H]; [left; exact E|right; exact (IH H)].
Qed.

Lemma dict_del_length k v d :
  dict_get k d = Some v -> S (length (dict_del k d)) = length d.
Proof.
  induction d as [|[k0 v0] rest IH]; cbn; [discriminate|].
  destruct (String.eqb k k0); cbn; [reflexivity|].
  intros H. f_equal. exact (IH H).
Qed.

End DictFacts.

Section SortFacts.
Context {A : Type}.
Variable key : A -> Q.

(** Later elements never have the larger key. *)
Definition descending (l : list A) : Prop :=
  StronglySorted (fun a b => (key b <= key a)%Q) l.

Lemma insert_desc_perm (x : A) (l : list A) :
  Permutation (insert_desc key x l) (x :: l).
Proof.
  induction l as [|y rest IH]; cbn; [reflexivity|].
  destruct (Qgtb (key y) (key x)); [|reflexivity].
  rewrite IH. apply perm_swap.
Qed.

Lemma py_sorted_desc_perm (l : list A) :
  Permutation (py_sorted_desc key l) l.
Proof.
  induction l as [|x rest IH]; cbn; [reflexivity|].
  rewrite insert_desc_perm. constructor. exact IH.
Qed.

Lemma py_sorted_desc_length (l : list A) :
  length (py_sorted_desc key l) = length l.
Proof. apply Permutation_length, py_sorted_desc_perm. Qed.

Lemma insert_desc_descending (x : A) (l : list A) :
  descending l -> descending (insert_desc key x l).
Proof.
  unfold descending. induction l as [|y rest IH]; intros Hs; cbn.
  - constructor; constructor.
  - apply StronglySorted_inv in Hs. destruct Hs as [Hrest Hall].
    destruct (Qgtb (key y) (key x)) eqn:E.
    + constructor; [exact (IH Hrest)|].
      apply Forall_forall. intros z Hz.
      apply list_elem_of_In in Hz.
      apply (Permutation_in _ (insert_desc_perm x rest)) in Hz.
      destruct Hz as [<-|Hz].
      * apply Qgtb_true in E. apply Qlt_le_weak. exact E.
      * rewrite Forall_forall in Hall. apply Hall.
        apply list_elem_of_In. exact Hz.
    + apply Qgtb_false in E.
      constructor; [constructor; assumption|].
      constructor; [exact E|].
      apply Forall_forall. intros z Hz.
      rewrite Forall_forall in Hall.
      apply Qle_trans with (key y); [apply Hall; exact Hz|exact E].
Qed.

Lemma py_sorted_desc_descending (l : list A) :
  descending (py_sorted_desc key l).
Proof.
  induction l as [|x rest IH]; cbn.
  - constructor.
  - apply insert_desc_descending. exact IH.
Qed.

(** The first maximal element, computed from the right. *)
Fixpoint first_max (x : A) (l : list A) : A :=
  match l with
  | [] => x
  | y :: rest =>
      let m := first_max y rest in
      if Qgtb (key m) (key x) then m else x
  end.

Lemma py_max_first_max (x : A) (l : list A) :
  py_max key (x :: l) = Ok (first_max x l).
Proof.
  unfold py_max. f_equal. revert x.
  induction l as [|y rest IH]; intros x; [reflexivity|].
  cbn [fold_left first_max]. rewrite IH.
  destruct rest as [|z rest'].
  - cbn [first_max]. reflexivity.
  - remember (first_max z rest') as mz.
    assert (Hmy : first_max y (z :: rest')
                  = if Qgtb (key mz) (key y) then mz else y)
      by (subst mz; reflexivity).
    rewrite Hmy.
    assert (Hm : forall b, first_max b (z :: rest')
                    = if Qgtb (key mz) (key b) then mz else b)
      by (intros b; subst mz; reflexivity).
    rewrite Hm. clear Hm Hmy IH Heqmz.
    destruct (Qgtb (key y) (key x)) eqn:Eyx;
      destruct (Qgtb (key mz) (key y)) eqn:Emy;
      try rewrite Eyx; try reflexivity.
    + apply Qgtb_true in Eyx, Emy.
      assert (Hmx : Qgtb (key mz) (key x) = true)
        by (apply Qgtb_true; eapply Qlt_trans; eassumption).
      rewrite Hmx. reflexivity.
    + apply Qgtb_false in Eyx, Emy.
      assert (Hmx : Qgtb (key mz) (key x) = false)
        by (apply Qgtb_false; eapply Qle_trans; eassumption).
      rewrite Hmx. reflexivity.
Qed.

Lemma py_sorted_desc_head (x : A) (l : list A) :
  exists rest, py_sorted_desc key (x :: l) = first_max x l :: rest.
Proof.
  revert x. induction l as [|y rest IH]; intros x.
  - exists []. reflexivity.
  - destruct (IH y) as [tail E].
    change (py_sorted_desc key (x :: y :: rest))
      with (insert_desc key x (py_sorted_desc key (y :: rest))).
    rewrite E. cbn [insert_desc first_max].
    destruct (Qgtb (key (first_max y rest)) (key x)); eauto.
Qed.

(** The winner of a sort is the response [max] picks. *)
Lemma py_sorted_desc_winner (l : list A) (winner : A) :
  py_index (py_sorted_desc key l) 0 = Ok winner ->
  py_max key l = Ok winner.
Proof.
  destruct l as [|x rest]; [cbn; discriminate|].
  destruct (py_sorted_desc_head x rest) as [tail E].
  rewrite E, py_max_first_max. cbn. intros [= <-]. reflexivity.
Qed.


End SortFacts.

Lemma py_index_0 {A : Type} (x : A) (l : list A) : py_index (x :: l) 0 = Ok x.
Proof. apply (py_index_nth x). cbn [length]. lia. Qed.

Lemma py_index_1 {A : Type} (x y : A) (l : list A) :
  py_index (x :: y :: l) 1 = Ok y.
Proof. apply (py_index_nth x (x :: y :: l) 1). cbn [length]. lia. Qed.

(** * Properties of the arbiter *)

Module ClaudeFacts.
Import ClaudeAgent.

(** ** Cleanup *)

(** The state [cleanup] leaves behind. *)
Definition cleaned (s : t) : t :=
  if MAX_HISTORY_SIZE (CONFIG s) <? Z.of_nat (length (active_debates s))
  then match oldest_completed (active_debates s) None None with
       | Some oldest_debate =>
           if String.eqb oldest_debate "" then s
           else mk (CONFIG s) (dict_del oldest_debate (active_debates s))
                  (model s)
       | None => s
       end
  else s.

Lemma cleanup_run (s : t) : cleanup s = (Ok tt, cleaned s, []).
Proof.
  unfold cleanup, cleaned, config, bind, get, ret. cbn.
  destruct (MAX_HISTORY_SIZE (CONFIG s) <? _); [|reflexivity].
  destruct (oldest_completed _ None None) as [k|]; [|reflexivity].
  destruct (String.eqb k ""); reflexivity.
Qed.

(** ** Final arbitration *)

Definition dissent_of (second : Stored) : Dissent :=
  {| dis_agent := r_agent second; dis_content := r_content second;
     dis_confidence := r_confidence second |}.

(** The outcome final arbitration publishes for a ranking headed by
    [winner]. *)
Definition concluded (now : Z) (debate_id : string) (round_num : Z)
    (responses : list Stored) (winner : Stored) (tail : list Stored)
    : Outcome :=
  {| out_debate_id := debate_id;
     out_round := round_num;
     out_status := "concluded";
     out_content := r_content winner;
     out_confidence := r_confidence winner;
     out_winning_agent := Some (r_agent winner);
     out_contributing_agents := List.map r_agent responses;
     out_dissenting_view :=
       match tail with
       | [] => None
       | second :: _ => Some (dissent_of second)
       end;
     out_timestamp := now |}.

Definition final_signal (now : Z) (winner : Stored) : Signal :=
  _generate_signal now "conclude" agent_name
    [Lit "Final decision: "; Str (r_agent winner);
     Lit " wins with confidence "; Float (r_confidence winner)]
    (Some "final_decision").

(** The debate marked completed. *)
Definition complete (debate : Debate) : Debate :=
  {| rounds := rounds debate; status := completed;
     start_time := start_time debate |}.

Lemma _perform_final_arbitration_run (now : Z) (debate_id : string)
    (round_num : Z) (responses : list Stored) (s : t)
    (winner : Stored) (tail : list Stored) (debate : Debate) :
  py_sorted_desc r_confidence responses = winner :: tail ->
  dict_get debate_id (active_debates s) = Some debate ->
  _perform_final_arbitration now debate_id round_num responses s
    = (Ok tt,
       cleaned (mk (CONFIG s)
                  (dict_set debate_id (complete debate) (active_debates s))
                  (model s)),
       [WsSend (PSignal (final_signal now winner));
        RedisPublish (REDIS_CHANNEL_ARB (CONFIG s))
          (POutcome (concluded now debate_id round_num responses
                       winner tail))]).
Proof.
  intros Hrank Hget. unfold _perform_final_arbitration.
  rewrite Hrank.
  assert (Hd : the_debate debate_id s = (Ok debate, s, []))
    by (unfold the_debate, bind, get; rewrite Hget; reflexivity).
  destruct tail as [|second tail'];
    mrun_with
      ltac:(cbn [length Nat.ltb Nat.leb])
      ltac:(first [ exact Hd | exact (cleanup_run _)
                  | apply (f_equal (fun r => (r, _, _)));
                    first [apply py_index_0 | apply py_index_1] ]).
Qed.

(** For a debate the table does not hold, the outcome is published all the
    same, and marking the debate completed raises. *)
Lemma _perform_final_arbitration_untracked (now : Z) (debate_id : string)
    (round_num : Z) (responses : list Stored) (s : t)
    (winner : Stored) (tail : list Stored) :
  py_sorted_desc r_confidence responses = winner :: tail ->
  dict_get debate_id (active_debates s) = None ->
  _perform_final_arbitration now debate_id round_num responses s
    = (Raise KeyError, s,
       [WsSend (PSignal (final_signal now winner));
        RedisPublish (REDIS_CHANNEL_ARB (CONFIG s))
          (POutcome (concluded now debate_id round_num responses
                       winner tail))]).
Proof.
  intros Hrank Hget. unfold _perform_final_arbitration.
  rewrite Hrank.
  assert (Hd : the_debate debate_id s = (Raise KeyError, s, []))
    by (unfold the_debate, bind, get; rewrite Hget; reflexivity).
  assert (Hlast : forall (k : Debate -> M t unit),
            bind (the_debate debate_id) k s = (Raise KeyError, s, []))
    by (intros k; apply run_bind_raise; exact Hd).
  destruct tail as [|second tail'].
  - erewrite run_bind_silent
      by (apply (f_equal (fun r => (r, _, _))); apply py_index_0).
    cbn [length Nat.ltb Nat.leb].
    erewrite run_bind_silent by reflexivity.
    unfold bind at 1. unfold emit at 1.
    unfold bind at 1. unfold config at 1. unfold bind at 1.
    unfold get at 1. unfold ret at 1.
    unfold bind at 1. unfold emit at 1.
    rewrite Hlast. reflexivity.
  - erewrite run_bind_silent
      by (apply (f_equal (fun r => (r, _, _))); apply py_index_0).
    cbn [length Nat.ltb Nat.leb].
    unfold bind at 2. unfold lift_result at 1. rewrite py_index_1.
    unfold ret at 1. cbn [app].
    erewrite run_bind_silent by reflexivity.
    unfold bind at 1. unfold emit at 1.
    unfold bind at 1. unfold config at 1. unfold bind at 1.
    unfold get at 1. unfold ret at 1.
    unfold bind at 1. unfold emit at 1.
    rewrite Hlast. reflexivity.
Qed.

(** On an empty list the ranking has no winner to index. *)
Lemma _perform_final_arbitration_empty (now : Z) (debate_id : string)
    (round_num : Z) (s : t) :
  _perform_final_arbitration now debate_id round_num [] s
    = (Raise IndexError, s, []).
Proof. reflexivity. Qed.

(** ** Filing a response *)

Definition new_debate (now : Z) : Debate :=
  {| rounds := ∅; status := active; start_time := now |}.

(** The debate a response belongs to: the tracked one, or a fresh one. *)
Definition debate_at (now : Z) (debate_id : string) (s : t) : Debate :=
  match dict_get debate_id (active_debates s) with
  | Some debate => debate
  | None => new_debate now
  end.

(** The responses already filed for a round of that debate. *)
Definition filed_at (now : Z) (debate_id : string) (round_num : Z) (s : t)
    : list Stored :=
  match rounds (debate_at now debate_id s) !! round_num with
  | Some filed => filed
  | None => []
  end.

Definition stored (now : Z) (response : Response) (agent : string)
    : Stored :=
  {| r_agent := agent;
     r_content := get_default (content response) "";
     r_confidence := get_default (confidence response) (7 # 10);
     r_reasoning := get_default (reasoning response) "";
     r_timestamp := now |}.

Definition id_of (response : Response) : string :=
  get_default (debate_id response) "default".
Definition round_of (response : Response) : Z :=
  get_default (round response) 0.

(** The round's responses once the new one is appended. *)
Definition round_responses (now : Z) (response : Response) (agent : string)
    (s : t) : list Stored :=
  filed_at now (id_of response) (round_of response) s
    ++ [stored now response agent].

(** The arbiter's state once the response is filed. *)
Definition ingested (now : Z) (response : Response) (agent : string)
    (s : t) : t :=
  let debate := debate_at now (id_of response) s in
  mk (CONFIG s)
     (dict_set (id_of response)
        {| rounds := <[round_of response :=
                         round_responses now response agent s]>
                       (rounds debate);
           status := status debate;
           start_time := start_time debate |}
        (active_debates s))
     (model s).

Lemma the_debate_run (debate_id : string) (s : t) (debate : Debate) :
  dict_get debate_id (active_debates s) = Some debate ->
  the_debate debate_id s = (Ok debate, s, []).
Proof.
  intros H. unfold the_debate, bind, get. rewrite H. reflexivity.
Qed.

(** [process_response] files the response and then takes one of three
    ways: final arbitration on a timeout, round arbitration on three or
    more responses, or nothing. *)
Lemma process_response_run (cosine : Vec -> Vec -> Q) (now : Z)
    (response : Response) (agent : string) (s : t) :
  let debate_id := id_of response in
  let round_num := round_of response in
  let responses := round_responses now response agent s in
  let s1 := ingested now response agent s in
  process_response cosine now response agent s =
    if (DEBATE_TIMEOUT (CONFIG s) * 1000000
          <? now - start_time (debate_at now debate_id s))
       && (0 <? length responses)%nat
    then _perform_final_arbitration now debate_id round_num responses s1
    else if (3 <=? length responses)%nat
    then _perform_arbitration cosine now debate_id round_num responses s1
    else (Ok tt, s1, []).
Proof.
  cbv zeta.
  unfold process_response, ingested, round_responses, filed_at, debate_at,
    id_of, round_of, stored, dict_mem.
  set (did := get_default (debate_id response) "default").
  set (round_num := get_default (round response) 0).
  set (x := {| r_agent := agent;
               r_content := get_default (content response) "";
               r_confidence := get_default (confidence response) (7 # 10);
               r_reasoning := get_default (reasoning response) "";
               r_timestamp := now |}).
  assert (Hfinal : forall (ads : dict Debate) (filed : list Stored)
            (debate : Debate) rnds,
            dict_get did ads = Some {| rounds := rnds;
              status := status debate; start_time := start_time debate |} ->
            rnds !! round_num = Some filed ->
            forall k : list Stored -> Debate -> M t unit,
            (let* debate := the_debate did in
             let* filed :=
               match rounds debate !! round_num with
               | Some filed => ret filed
               | None => raise KeyError
               end in
             set_debates (dict_set did
               {| rounds := <[round_num := filed ++ [x]]> (rounds debate);
                  status := status debate;
                  start_time := start_time debate |});;
             let* debate := the_debate did in
             k filed debate) (mk (CONFIG s) ads (model s))
            = k filed {| rounds := <[round_num := filed ++ [x]]> rnds;
                   status := status debate;
                   start_time := start_time debate |}
                (mk (CONFIG s)
                   (dict_set did
                      {| rounds := <[round_num := filed ++ [x]]> rnds;
                         status := status debate;
                         start_time := start_time debate |} ads)
                   (model s))).
  { intros ads filed debate rnds Hget Hr k.
    erewrite run_bind_silent by (apply the_debate_run; exact Hget).
    cbn [rounds status start_time]. rewrite Hr.
    erewrite run_bind_silent by reflexivity.
    erewrite run_bind_silent by reflexivity.
    erewrite run_bind_silent
      by (apply the_debate_run; cbn [active_debates];
          apply dict_get_set_eq).
    reflexivity. }
  erewrite run_bind_silent by reflexivity.
  destruct (dict_get did (active_debates s)) as [debate|] eqn:Hget.
  - erewrite run_bind_silent by reflexivity.
    erewrite run_bind_silent by (apply the_debate_run; exact Hget).
    destruct (rounds debate !! round_num) as [filed|] eqn:Hr.
    + erewrite run_bind_silent by reflexivity.
      destruct s as [cfg ads mdl]. cbn [CONFIG active_debates model] in *.
      etransitivity;
        [refine (Hfinal ads filed debate (rounds debate) _ Hr _);
         destruct debate; exact Hget|].
      cbv beta. unfold config.
      erewrite run_bind_silent by reflexivity.
      cbn [CONFIG start_time new_debate].
      destruct (_ && _); [reflexivity|].
      destruct (3 <=? _)%nat; reflexivity.
    + erewrite run_bind_silent by reflexivity.
      destruct s as [cfg ads mdl]. cbn [CONFIG active_debates model] in *.
      etransitivity;
        [refine (Hfinal _ [] debate (<[round_num := []]> (rounds debate))
                   _ _ _);
         [apply dict_get_set_eq|apply lookup_insert_eq]|].
      cbv beta. rewrite dict_set_set, insert_insert_eq.
      unfold config.
      erewrite run_bind_silent by reflexivity.
      cbn [CONFIG start_time new_debate].
      destruct (_ && _); [reflexivity|].
      destruct (3 <=? _)%nat; reflexivity.
  - erewrite run_bind_silent by reflexivity.
    erewrite run_bind_silent
      by (apply the_debate_run; cbn [active_debates]; apply dict_get_set_eq).
    cbn [rounds new_debate]. rewrite lookup_empty.
    erewrite run_bind_silent by reflexivity.
    destruct s as [cfg ads mdl]. cbn [CONFIG active_debates model] in *.
    etransitivity;
      [refine (Hfinal _ [] (new_debate now) (<[round_num := []]> ∅) _ _ _);
       [apply dict_get_set_eq|apply lookup_insert_eq]|].
    cbv beta. rewrite !dict_set_set, insert_insert_eq.
    unfold config.
    erewrite run_bind_silent by reflexivity.
    cbn [CONFIG start_time new_debate].
    destruct (_ && _); [reflexivity|].
    destruct (3 <=? _)%nat; reflexivity.
Qed.

End ClaudeFacts.

(** * Claims on the arbiter *)

Module ClaudeClaims.
Import ClaudeAgent ClaudeFacts.

(** The arbiter as configured by default, tracking one debate [d1] that
    started at instant 0 and has [filed] as its round 0. *)
Definition tracking (filed : list Stored) : t :=
  {| CONFIG := default_config;
     active_debates :=
       [("d1", {| rounds := {[ 0 := filed ]}; status := active;
                  start_time := 0 |})];
     model := None |}.

Definition answer (agent text : string) (conf : Q) : Stored :=
  {| r_agent := agent; r_content := text; r_confidence := conf;
     r_reasoning := ""; r_timestamp := 0 |}.

Definition reply (round_num : Z) (text : string) (conf : Q) : Response :=
  {| debate_id := Some "d1"; round := Some round_num; content := Some text;
     confidence := Some conf; reasoning := Some "" |}.

(** C2. Once more than [DEBATE_TIMEOUT] seconds have passed since the
    debate started, filing a response runs final arbitration on the round
    at once, whatever the number of responses; and final arbitration on a
    non-empty list returns, publishing a [concluded] outcome whose
    content, confidence and winning agent are those of the response of
    maximal confidence, with the runner-up as dissenting view when there
    is one and none otherwise. *)
Theorem timeout_forces_final_arbitration (cosine : Vec -> Vec -> Q) :
  (forall (now : Z) (response : Response) (agent : string) (s : t),
     DEBATE_TIMEOUT (CONFIG s) * 1000000
       < now - start_time (debate_at now (id_of response) s) ->
     process_response cosine now response agent s
       = _perform_final_arbitration now (id_of response) (round_of response)
           (round_responses now response agent s)
           (ingested now response agent s)) /\
  (forall (now : Z) (debate_id : string) (round_num : Z)
          (responses : list Stored) (s : t),
     responses <> [] ->
     exists (winner : Stored) (tail : list Stored),
       Permutation responses (winner :: tail) /\
       descending r_confidence (winner :: tail) /\
       py_max r_confidence responses = Ok winner /\
       let r := _perform_final_arbitration now debate_id round_num
                  responses s in
       (dict_mem debate_id (active_debates s) = true -> outcome r = Ok tt) /\
       exists o : Outcome,
         events r = [WsSend (PSignal (final_signal now winner));
                     RedisPublish (REDIS_CHANNEL_ARB (CONFIG s))
                       (POutcome o)] /\
         out_status o = "concluded" /\
         out_content o = r_content winner /\
         out_confidence o = r_confidence winner /\
         out_winning_agent o = Some (r_agent winner) /\
         out_dissenting_view o =
           match tail with
           | [] => None
           | second :: _ => Some (dissent_of second)
           end).
Proof.
  split.
  - intros now response agent s Hlate.
    rewrite process_response_run. cbv zeta.
    apply Z.ltb_lt in Hlate. rewrite Hlate.
    unfold round_responses at 1. rewrite length_app. cbn [length].
    replace (0 <? _ + 1)%nat with true
      by (symmetry; apply Nat.ltb_lt; lia).
    reflexivity.
  - intros now debate_id round_num responses s Hne.
    destruct (py_sorted_desc r_confidence responses) as [|winner tail]
      eqn:Hrank.
    { apply (f_equal (@length Stored)) in Hrank.
      rewrite py_sorted_desc_length in Hrank.
      destruct responses; [congruence|discriminate]. }
    exists winner, tail.
    split; [rewrite <- Hrank; symmetry; apply py_sorted_desc_perm|].
    split; [rewrite <- Hrank; apply py_sorted_desc_descending|].
    split.
    { apply py_sorted_desc_winner. rewrite Hrank. apply py_index_0. }
    cbv zeta. unfold dict_mem.
    destruct (dict_get debate_id (active_debates s)) as [debate|] eqn:Hget.
    + rewrite (_perform_final_arbitration_run now debate_id round_num
                 responses s winner tail debate Hrank Hget).
      split; [reflexivity|].
      exists (concluded now debate_id round_num responses winner tail).
      repeat split.
    + rewrite (_perform_final_arbitration_untracked now debate_id round_num
                 responses s winner tail Hrank Hget).
      split; [discriminate|].
      exists (concluded now debate_id round_num responses winner tail).
      repeat split.
Qed.

Lemma timeout_forces_final_arbitration_witness :
  outcome (process_response (fun _ _ => 0%Q) 31000000
             (reply 0 "late" (6 # 10)) "GPT"
             (tracking [answer "Grok" "early" (9 # 10)]))
    = Ok tt /\
  exists o : Outcome,
    events (process_response (fun _ _ => 0%Q) 31000000
              (reply 0 "late" (6 # 10)) "GPT"
              (tracking [answer "Grok" "early" (9 # 10)]))
      = [WsSend (PSignal (final_signal 31000000
                            (answer "Grok" "early" (9 # 10))));
         RedisPublish "arbitration_channel" (POutcome o)] /\
    out_status o = "concluded" /\
    out_content o = "early" /\
    out_winning_agent o = Some "Grok" /\
    out_dissenting_view o
      = Some {| dis_agent := "GPT"; dis_content := "late";
                dis_confidence := 6 # 10 |}.
Proof.
  destruct (timeout_forces_final_arbitration (fun _ _ => 0%Q))
    as [Hlate Hfinal].
  rewrite (Hlate 31000000 (reply 0 "late" (6 # 10)) "GPT"
             (tracking [answer "Grok" "early" (9 # 10)]))
    by (vm_compute; reflexivity).
  destruct (Hfinal 31000000 "d1" 0
              (round_responses 31000000 (reply 0 "late" (6 # 10)) "GPT"
                 (tracking [answer "Grok" "early" (9 # 10)]))
              (ingested 31000000 (reply 0 "late" (6 # 10)) "GPT"
                 (tracking [answer "Grok" "early" (9 # 10)])))
    as (winner & tail & _ & _ & Hmax & Hout & o & Hev & Hst & Hc & _ & Hw & _).
  - vm_compute. discriminate.
  - assert (Hwin : winner = answer "Grok" "early" (9 # 10)).
    { vm_compute in Hmax. injection Hmax as <-. reflexivity. }
    subst winner.
    split; [apply Hout; vm_compute; reflexivity|].
    exists o. split; [exact Hev|]. split; [exact Hst|].
    split; [exact Hc|]. split; [exact Hw|].
    assert (E : events (_perform_final_arbitration 31000000 "d1" 0
                 (round_responses 31000000 (reply 0 "late" (6 # 10)) "GPT"
                    (tracking [answer "Grok" "early" (9 # 10)]))
                 (ingested 31000000 (reply 0 "late" (6 # 10)) "GPT"
                    (tracking [answer "Grok" "early" (9 # 10)])))
               = [WsSend (PSignal (final_signal 31000000
                            (answer "Grok" "early" (9 # 10))));
                  RedisPublish "arbitration_channel"
                    (POutcome (concluded 31000000 "d1" 0
                       [answer "Grok" "early" (9 # 10);
                        {| r_agent := "GPT"; r_content := "late";
                           r_confidence := 6 # 10; r_reasoning := "";
                           r_timestamp := 31000000 |}]
                       (answer "Grok" "early" (9 # 10))
                       [{| r_agent := "GPT"; r_content := "late";
                           r_confidence := 6 # 10; r_reasoning := "";
                           r_timestamp := 31000000 |}]))])
      by (vm_compute; reflexivity).
    rewrite E in Hev. injection Hev as <-. reflexivity.
Defined.

End ClaudeClaims.

(** ** Round arbitration *)

Module ArbitrationFacts.
Import ClaudeAgent ClaudeFacts.

Section Checks.
Variable cosine : Vec -> Vec -> Q.

(** The similarity the consensus check compares two contents by: cosine of
    the embeddings when a model is loaded, word-set overlap otherwise. *)
Definition similarity (s : t) (text1 text2 : string) : Q :=
  match model s with
  | Some encode => cosine (encode text1) (encode text2)
  | None => _text_similarity text1 text2
  end.

Definition similar (s : t) (r1 r2 : Stored) : bool :=
  Qgtb (similarity s (r_content r1) (r_content r2))
    (1 - CONSENSUS_THRESHOLD (CONFIG s))%Q.

(** The test [similar_count / required_similar > 0.8]. *)
Definition consensus_reached (s : t) (responses : list Stored) : bool :=
  let n := Z.of_nat (length responses) in
  Qgtb (inject_Z (count_pairs (similar s) responses)
          / (inject_Z (n * (n - 1)) / 2))%Q
       (8 # 10).

Lemma count_pairs_map {B C : Type} (f : B -> C) (test : C -> C -> bool)
    (l : list B) :
  count_pairs test (List.map f l) = count_pairs (fun a b => test (f a) (f b)) l.
Proof.
  induction l as [|x rest IH]; [reflexivity|].
  cbn [List.map count_pairs]. rewrite IH. f_equal. f_equal.
  clear IH. induction rest as [|y rest IH]; [reflexivity|].
  cbn [List.map List.filter]. destruct (test (f x) (f y)); cbn [length];
    rewrite IH; reflexivity.
Qed.

Lemma _check_consensus_run (s : t) (first : Stored) (others : list Stored) :
  others <> [] ->
  _check_consensus cosine (first :: others) s
    = (Ok (if consensus_reached s (first :: others)
           then (true, Some (first_max r_confidence first others))
           else (false, None)),
       s, []).
Proof.
  intros Hne. unfold _check_consensus.
  destruct others as [|second rest]; [congruence|].
  change (length (first :: second :: rest) <=? 1)%nat with false.
  cbv iota.
  unfold bind at 1. unfold get at 1.
  assert (Hcount :
    match model s with
    | Some encode =>
        count_pairs
          (fun e1 e2 => Qgtb (cosine e1 e2)
                          (1 - CONSENSUS_THRESHOLD (CONFIG s))%Q)
          (List.map encode (List.map r_content (first :: second :: rest)))
    | None =>
        count_pairs
          (fun r1 r2 =>
             Qgtb (_text_similarity (r_content r1) (r_content r2))
               (1 - CONSENSUS_THRESHOLD (CONFIG s))%Q)
          (first :: second :: rest)
    end = count_pairs (similar s) (first :: second :: rest)).
  { unfold similar, similarity. destruct (model s) as [encode|].
    - rewrite !count_pairs_map. reflexivity.
    - reflexivity. }
  cbv zeta. rewrite Hcount. unfold consensus_reached. cbv zeta.
  destruct (Qgtb _ (8 # 10)).
  - unfold bind, lift_result, ret.
    rewrite py_max_first_max. reflexivity.
  - reflexivity.
Qed.

(** The test [highest - second > CONFIDENCE_THRESHOLD]. *)
Definition strong_lead (s : t) (highest second : Stored) : bool :=
  Qgtb (r_confidence highest - r_confidence second)
       (CONFIDENCE_THRESHOLD (CONFIG s)).

Lemma _check_strong_confidence_run (s : t) (responses : list Stored)
    (highest second : Stored) (rest : list Stored) :
  py_sorted_desc r_confidence responses = highest :: second :: rest ->
  _check_strong_confidence responses s
    = (Ok (if strong_lead s highest second
           then (true, Some highest) else (false, None)),
       s, []).
Proof.
  intros Hrank. unfold _check_strong_confidence.
  assert (Hlen : length responses = S (S (length rest))).
  { rewrite <- (py_sorted_desc_length r_confidence), Hrank. reflexivity. }
  rewrite Hlen. cbn [Nat.leb]. rewrite Hrank.
  erewrite run_bind_silent
    by (apply (f_equal (fun r => (r, _, _))); apply py_index_0).
  erewrite run_bind_silent
    by (apply (f_equal (fun r => (r, _, _))); apply py_index_1).
  erewrite run_bind_silent by reflexivity.
  unfold strong_lead.
  destruct (Qgtb _ (CONFIDENCE_THRESHOLD (CONFIG s))); reflexivity.
Qed.

End Checks.

(** The four ways round arbitration can go. *)
Inductive Decision : Type :=
  | Consensus (chosen : Stored)
  | StrongConfidence (chosen : Stored)
  | FinalArbitration
  | Continue (next_round : Z).

(** The outcome published for a round that ends on [chosen]. *)
Definition verdict (now : Z) (debate_id : string) (round_num : Z)
    (status : string) (chosen : Stored) (contributing : list string)
    : Outcome :=
  {| out_debate_id := debate_id;
     out_round := round_num;
     out_status := status;
     out_content := r_content chosen;
     out_confidence := r_confidence chosen;
     out_winning_agent := None;
     out_contributing_agents := contributing;
     out_dissenting_view := None;
     out_timestamp := now |}.

Definition arbitration_signal (now : Z) (message : text) (flag : string)
    : Signal :=
  _generate_signal now "arbitration" agent_name message (Some flag).

(** What the arbiter does on each decision, from state [s]. *)
Definition enacted (now : Z) (debate_id : string) (round_num : Z)
    (responses : list Stored) (s : t) (d : Decision)
    : result unit * t * list event :=
  match d with
  | Consensus chosen =>
      (Ok tt, s,
       [WsSend (PSignal (arbitration_signal now
          [Lit "Consensus reached in round "; Int round_num] "consensus"));
        RedisPublish (REDIS_CHANNEL_ARB (CONFIG s))
          (POutcome (verdict now debate_id round_num "consensus" chosen
                       (List.map r_agent responses)))])
  | StrongConfidence chosen =>
      (Ok tt, s,
       [WsSend (PSignal (arbitration_signal now
          [Lit "Strong confidence differential in round "; Int round_num]
          "strong_confidence"));
        RedisPublish (REDIS_CHANNEL_ARB (CONFIG s))
          (POutcome (verdict now debate_id round_num "strong_confidence"
                       chosen [r_agent chosen]))])
  | FinalArbitration =>
      _perform_final_arbitration now debate_id round_num responses s
  | Continue next_round =>
      (Ok tt, s,
       [WsSend (PSignal (arbitration_signal now
          [Lit "Continue to round "; Int next_round] "continue"));
        RedisPublish (REDIS_CHANNEL_MOD (CONFIG s))
          (PContinue debate_id round_num next_round now)])
  end.

(** The decision the code takes, on the checks it makes, for responses
    whose ranking starts with [top] and [second]. *)
Definition decided (cosine : Vec -> Vec -> Q) (s : t) (round_num : Z)
    (responses : list Stored) (top second : Stored) : Decision :=
  if consensus_reached cosine s responses then Consensus top
  else if (MIN_DEBATE_ROUNDS (CONFIG s) <=? round_num)
          && strong_lead s top second
  then StrongConfidence top
  else if MAX_DEBATE_ROUNDS (CONFIG s) <=? round_num then FinalArbitration
  else Continue (round_num + 1).

(** Two responses or more rank as a top, a second and the rest, and the top
    is the response [max] picks. *)
Lemma ranking_of_two (responses : list Stored) :
  (2 <= length responses)%nat ->
  exists top second rest,
    py_sorted_desc r_confidence responses = top :: second :: rest /\
    py_max r_confidence responses = Ok top.
Proof.
  intros Hlen.
  destruct responses as [|first others]; [cbn in Hlen; lia|].
  destruct (py_sorted_desc_head r_confidence first others) as [tail Hrank].
  destruct tail as [|second rest].
  { apply (f_equal (@length Stored)) in Hrank.
    rewrite py_sorted_desc_length in Hrank. cbn in Hrank, Hlen. lia. }
  exists (first_max r_confidence first others), second, rest.
  split; [exact Hrank|apply py_max_first_max].
Qed.

Lemma _perform_arbitration_run (cosine : Vec -> Vec -> Q) (now : Z)
    (debate_id : string) (round_num : Z) (responses : list Stored) (s : t)
    (top second : Stored) (rest : list Stored) :
  py_sorted_desc r_confidence responses = top :: second :: rest ->
  _perform_arbitration cosine now debate_id round_num responses s
    = enacted now debate_id round_num responses s
        (decided cosine s round_num responses top second).
Proof.
  intros Hrank.
  destruct responses as [|first others]; [discriminate|].
  assert (Hne : others <> []).
  { intros ->. cbn in Hrank. discriminate. }
  assert (Htop : top = first_max r_confidence first others).
  { destruct (py_sorted_desc_head r_confidence first others) as [tail E].
    rewrite E in Hrank. congruence. }
  unfold _perform_arbitration, decided.
  erewrite run_bind_silent by (apply _check_consensus_run; exact Hne).
  rewrite <- Htop.
  destruct (consensus_reached cosine s (first :: others)); [reflexivity|].
  cbv beta iota.
  erewrite run_bind_silent
    by (apply (_check_strong_confidence_run s _ top second rest); exact Hrank).
  destruct (strong_lead s top second).
  - cbv beta iota. unfold config.
    erewrite run_bind_silent by reflexivity.
    destruct (MIN_DEBATE_ROUNDS (CONFIG s) <=? round_num); [reflexivity|].
    cbn [andb].
    destruct (MAX_DEBATE_ROUNDS (CONFIG s) <=? round_num); reflexivity.
  - cbv beta iota. unfold config.
    erewrite run_bind_silent by reflexivity.
    rewrite !andb_false_r.
    destruct (MAX_DEBATE_ROUNDS (CONFIG s) <=? round_num); reflexivity.
Qed.

End ArbitrationFacts.

(** ** Unordered pairs by position *)

(** Written after the specification, to compare with [count_pairs]: the
    positions [(i, j)] with [i < j < n], and the number of them whose two
    elements pass a test. *)
Definition index_pairs (n : nat) : list (nat * nat) :=
  flat_map (fun i => List.map (pair i) (seq (S i) (n - S i))) (seq 0 n).



Section PairFacts.
Context {B : Type}.

Definition shift (p : nat * nat) : nat * nat := (S (fst p), S (snd p)).

Lemma index_pairs_S (n : nat) :
  index_pairs (S n)
    = List.map (pair 0%nat) (seq 1 n) ++ List.map shift (index_pairs n).
Proof.
  unfold index_pairs.
  change (seq 0 (S n)) with (0%nat :: seq 1 n).
  cbn [flat_map]. replace (S n - 1)%nat with n by lia. f_equal.
  rewrite <- seq_shift.
  generalize (seq 0 n). intros l.
  induction l as [|i l IH]; [reflexivity|].
  cbn [List.map flat_map]. rewrite map_app, IH. f_equal.
  change (S n - S (S i))%nat with (n - S i)%nat.
  rewrite <- seq_shift, !map_map. reflexivity.
Qed.

Lemma index_pairs_lt (n i j : nat) :
  In (i, j) (index_pairs n) <-> (i < j < n)%nat.
Proof.
  unfold index_pairs. rewrite in_flat_map. split.
  - intros (k & Hk & Hin). apply in_map_iff in Hin.
    destruct Hin as (m & E & Hm). injection E as <- <-.
    apply in_seq in Hk. apply in_seq in Hm. lia.
  - intros H. exists i. split; [apply in_seq; lia|].
    apply in_map_iff. exists j. split; [reflexivity|apply in_seq; lia].
Qed.

(** There are [n (n - 1) / 2] of them. *)
Lemma index_pairs_length (n : nat) :
  (2 * length (index_pairs n) = n * (n - 1))%nat.
Proof.
  induction n as [|n IH]; [reflexivity|].
  rewrite index_pairs_S, length_app, !length_map, length_seq.
  destruct n as [|m]; [reflexivity|].
  cbn [Nat.sub] in *. rewrite Nat.sub_0_r in *. nia.
Qed.




End PairFacts.

Module ArbitrationClaims.
Import ClaudeAgent ClaudeFacts ArbitrationFacts.



(** ** The scenarios of the specification, run *)

Definition no_cosine : Vec -> Vec -> Q := fun _ _ => 0%Q.

(** The arbiter of [__init__] under the default configuration, tracking
    debate [d1] with the given round filed. *)
Definition arbiter (round_num : Z) (filed : list Stored) : t :=
  {| CONFIG := default_config;
     active_debates :=
       [("d1", {| rounds := {[ round_num := filed ]}; status := active;
                  start_time := 0 |})];
     model := None |}.

Definition said (agent text : string) (conf : Q) : Stored :=
  {| r_agent := agent; r_content := text; r_confidence := conf;
     r_reasoning := ""; r_timestamp := 0 |}.

Definition agreeing : list Stored :=
  [said "Grok" "the answer is forty two" (9 # 10);
   said "Claude" "The answer is forty two" (8 # 10);
   said "GPT" "the answer is  forty two" (7 # 10)].

Definition diverging (c1 c2 c3 : Q) : list Stored :=
  [said "Grok" "use a relational database" c1;
   said "Claude" "keep everything in flat files" c2;
   said "GPT" "stream events through a log" c3].


(** S2: a lead of 0.35 at round 2. *)
Example strong_confidence_at_round_2 :
  let responses := diverging (95 # 100) (60 # 100) (55 # 100) in
  _perform_arbitration no_cosine 5 "d1" 2 responses (arbiter 2 responses)
    = enacted 5 "d1" 2 responses (arbiter 2 responses)
        (StrongConfidence (said "Grok" "use a relational database" (95 # 100))).
Proof. vm_compute. reflexivity. Qed.

(** S3: no agreement and no lead at round 1. *)
Example continue_at_round_1 :
  let responses := diverging (60 # 100) (55 # 100) (50 # 100) in
  _perform_arbitration no_cosine 5 "d1" 1 responses (arbiter 1 responses)
    = enacted 5 "d1" 1 responses (arbiter 1 responses) (Continue 2).
Proof. vm_compute. reflexivity. Qed.

(** S4: the same at round 4 is concluded, with the runner-up dissenting. *)
Example concluded_at_round_4 :
  let responses := diverging (60 # 100) (55 # 100) (50 # 100) in
  events (_perform_arbitration no_cosine 5 "d1" 4 responses
            (arbiter 4 responses))
    = [WsSend (PSignal (final_signal 5
                 (said "Grok" "use a relational database" (60 # 100))));
       RedisPublish "arbitration_channel"
         (POutcome (concluded 5 "d1" 4 responses
            (said "Grok" "use a relational database" (60 # 100))
            [said "Claude" "keep everything in flat files" (55 # 100);
             said "GPT" "stream events through a log" (50 # 100)]))].
Proof. vm_compute. reflexivity. Qed.

End ArbitrationClaims.

(** ** Moderation signals *)

Module ModerationClaims.
Import ClaudeAgent ClaudeFacts ArbitrationFacts ArbitrationClaims.

(** C8. A [deadlock] or [loop_detected] signal makes the arbiter send
    [threshold_adjusted] or [forcing_decision] on the stream and nothing
    else: its state, [CONFIG] included, is what it was, so both thresholds
    and every later check read the same values; the softened or doubled
    threshold is a local of the handler. *)
Theorem moderation_leaves_config (now : Z) (state : string)
    (data_debate_id : option string) (s : t) :
  state = "deadlock" \/ state = "loop_detected" ->
  let r := process_moderation now state data_debate_id s in
  outcome r = Ok tt /\
  final_state r = s /\
  CONFIDENCE_THRESHOLD (CONFIG (final_state r)) = CONFIDENCE_THRESHOLD (CONFIG s) /\
  CONSENSUS_THRESHOLD (CONFIG (final_state r)) = CONSENSUS_THRESHOLD (CONFIG s) /\
  events r =
    [WsSend (PSignal
       (if String.eqb state "deadlock"
        then arbitration_signal now
               [Lit "Adjusting confidence threshold to break deadlock"]
               "threshold_adjusted"
        else arbitration_signal now
               [Lit "Forcing decision to break loop"] "forcing_decision"))] /\
  (forall (cosine : Vec -> Vec -> Q) (responses : list Stored),
     _check_consensus cosine responses (final_state r)
       = _check_consensus cosine responses s /\
     _check_strong_confidence responses (final_state r)
       = _check_strong_confidence responses s).
Proof.
  intros [-> | ->]; cbv zeta.
  - assert (E : process_moderation now "deadlock" data_debate_id s
                = (Ok tt, s,
                   [WsSend (PSignal (arbitration_signal now
                      [Lit "Adjusting confidence threshold to break deadlock"]
                      "threshold_adjusted"))])) by reflexivity.
    rewrite E. unfold outcome, final_state, events. cbn [fst snd String.eqb].
    repeat split; reflexivity.
  - assert (E : process_moderation now "loop_detected" data_debate_id s
                = (Ok tt, s,
                   [WsSend (PSignal (arbitration_signal now
                      [Lit "Forcing decision to break loop"]
                      "forcing_decision"))])) by reflexivity.
    rewrite E. unfold outcome, final_state, events. cbn [fst snd].
    repeat split; reflexivity.
Qed.

Lemma moderation_leaves_config_witness :
  let s := arbiter 1 agreeing in
  let r := process_moderation 7 "deadlock" (Some "d1") s in
  final_state r = s /\
  CONFIDENCE_THRESHOLD (CONFIG (final_state r)) = (25 # 100)%Q /\
  events r =
    [WsSend (PSignal (arbitration_signal 7
       [Lit "Adjusting confidence threshold to break deadlock"]
       "threshold_adjusted"))].
Proof.
  destruct (moderation_leaves_config 7 "deadlock" (Some "d1")
              (arbiter 1 agreeing) (or_introl eq_refl))
    as (_ & Hs & Hc & _ & He & _).
  split; [exact Hs|]. split; [exact Hc|exact He].
Defined.

End ModerationClaims.

(** ** The bounded table of debates *)

Module EvictionFacts.
Import ClaudeAgent ClaudeFacts ArbitrationFacts ArbitrationClaims.

(** [k] names a completed debate of [items] that started no later than any
    other completed one. *)
Definition oldest_of (items : dict Debate) (k : string) : Prop :=
  exists d : Debate,
    In (k, d) items /\ status d = completed /\
    forall (k' : string) (d' : Debate),
      In (k', d') items -> status d' = completed ->
      start_time d <= start_time d'.

Lemma oldest_completed_acc (items : dict Debate) (k0 : string) (t0 : Z) :
  exists (k : string) (t1 : Z),
    oldest_completed items (Some k0) (Some t0) = Some k /\
    t1 <= t0 /\
    (forall k' d', In (k', d') items -> status d' = completed ->
                   t1 <= start_time d') /\
    ((k = k0 /\ t1 = t0) \/
     exists d, In (k, d) items /\ status d = completed /\ start_time d = t1).
Proof.
  revert k0 t0. induction items as [|[k1 d1] rest IH]; intros k0 t0.
  - exists k0, t0. cbn. repeat split; [lia|tauto|auto].
  - cbn [oldest_completed]. destruct (status d1) eqn:Est.
    + destruct (IH k0 t0) as (k & t1 & E & Hle & Hmin & Hwho).
      exists k, t1. split; [exact E|]. split; [exact Hle|]. split.
      * intros k' d' [[= <- <-]|Hin] Hc; [congruence|eauto].
      * destruct Hwho as [Hsame|(d & Hin & Hc & Ht)]; [left; exact Hsame|].
        right. exists d. split; [right; exact Hin|auto].
    + destruct (Z.ltb_spec (start_time d1) t0) as [Hlt|Hge].
      * destruct (IH k1 (start_time d1)) as (k & t1 & E & Hle & Hmin & Hwho).
        exists k, t1. split; [exact E|]. split; [lia|]. split.
        -- intros k' d' [[= <- <-]|Hin] Hc; [exact Hle|eauto].
        -- right. destruct Hwho as [[-> ->]|(d & Hin & Hc & Ht)].
           ++ exists d1. split; [left; reflexivity|auto].
           ++ exists d. split; [right; exact Hin|auto].
      * destruct (IH k0 t0) as (k & t1 & E & Hle & Hmin & Hwho).
        exists k, t1. split; [exact E|]. split; [exact Hle|]. split.
        -- intros k' d' [[= <- <-]|Hin] Hc; [lia|eauto].
        -- destruct Hwho as [Hsame|(d & Hin & Hc & Ht)]; [left; exact Hsame|].
           right. exists d. split; [right; exact Hin|auto].
Qed.

(** The loop finds an oldest completed debate, or none when all are
    active. *)
Lemma oldest_completed_spec (items : dict Debate) :
  match oldest_completed items None None with
  | Some k => oldest_of items k
  | None => forall k d, In (k, d) items -> status d = active
  end.
Proof.
  induction items as [|[k1 d1] rest IH].
  - cbn. tauto.
  - cbn [oldest_completed]. destruct (status d1) eqn:Est.
    + destruct (oldest_completed rest None None) as [k|].
      * destruct IH as (d & Hin & Hc & Hmin).
        exists d. split; [right; exact Hin|]. split; [exact Hc|].
        intros k' d' [[= <- <-]|Hin'] Hc'; [congruence|eauto].
      * intros k d [[= <- <-]|Hin]; [exact Est|eauto].
    + destruct (oldest_completed_acc rest k1 (start_time d1))
        as (k & t1 & E & Hle & Hmin & Hwho).
      rewrite E.
      destruct Hwho as [[-> ->]|(d & Hin & Hc & Ht)].
      * exists d1. split; [left; reflexivity|]. split; [exact Est|].
        intros k' d' [[= <- <-]|Hin'] Hc'; [lia|eauto].
      * exists d. split; [right; exact Hin|]. split; [exact Hc|].
        intros k' d' [[= <- <-]|Hin'] Hc'; [lia|].
        rewrite Ht. eauto.
Qed.

Lemma dict_del_length_le {V : Type} (k : string) (d : dict V) :
  (length d <= S (length (dict_del k d)))%nat.
Proof.
  induction d as [|[k' v'] rest IH]; cbn; [lia|].
  destruct (String.eqb k k'); cbn; lia.
Qed.

(** Where [process_response] leaves the table: as filed, or as filed, marked
    completed and cleaned up. *)
Definition marked (debate_id : string) (s : t) : t :=
  match dict_get debate_id (active_debates s) with
  | Some debate =>
      mk (CONFIG s) (dict_set debate_id (complete debate) (active_debates s))
         (model s)
  | None => s
  end.

Lemma ingested_tracks (now : Z) (response : Response) (agent : string)
    (s : t) :
  exists debate,
    dict_get (id_of response) (active_debates (ingested now response agent s))
      = Some debate.
Proof.
  unfold ingested. cbn [active_debates]. eexists. apply dict_get_set_eq.
Qed.

Lemma final_arbitration_state (now : Z) (debate_id : string) (round_num : Z)
    (responses : list Stored) (s : t) (debate : Debate) :
  responses <> [] ->
  dict_get debate_id (active_debates s) = Some debate ->
  final_state (_perform_final_arbitration now debate_id round_num responses s)
    = cleaned (marked debate_id s).
Proof.
  intros Hne Hget.
  destruct (py_sorted_desc r_confidence responses) as [|winner tail] eqn:Hrank.
  { apply (f_equal (@length Stored)) in Hrank.
    rewrite py_sorted_desc_length in Hrank.
    destruct responses; [congruence|discriminate]. }
  rewrite (_perform_final_arbitration_run now debate_id round_num responses s
             winner tail debate Hrank Hget).
  unfold marked. rewrite Hget. reflexivity.
Qed.

Lemma process_response_state (cosine : Vec -> Vec -> Q) (now : Z)
    (response : Response) (agent : string) (s : t) :
  let s1 := ingested now response agent s in
  let s' := final_state (process_response cosine now response agent s) in
  s' = s1 \/ s' = cleaned (marked (id_of response) s1).
Proof.
  cbv zeta. rewrite process_response_run. cbv zeta.
  destruct (ingested_tracks now response agent s) as [debate Hget].
  assert (Hne : round_responses now response agent s <> [])
    by (unfold round_responses; destruct (filed_at _ _ _ _); discriminate).
  destruct (_ && _).
  - right. eapply final_arbitration_state; eassumption.
  - destruct (Nat.leb_spec 3 (length (round_responses now response agent s)))
      as [Hlen|_]; [|left; reflexivity].
    destruct (ranking_of_two (round_responses now response agent s))
      as (top & second & rest & Hrank & _); [lia|].
    rewrite (_perform_arbitration_run cosine now (id_of response)
               (round_of response) _ (ingested now response agent s)
               top second rest Hrank).
    destruct (decided _ _ _ _ _ _); cbn [enacted]; try (left; reflexivity).
    right. eapply final_arbitration_state; eassumption.
Qed.

Lemma dict_del_keys {V : Type} (k k' : string) (d : dict V) :
  In k' (List.map fst (dict_del k d)) -> In k' (List.map fst d).
Proof.
  induction d as [|[k0 v0] rest IH]; cbn; [tauto|].
  destruct (String.eqb k k0); cbn; [tauto|].
  intros [E|H]; [left; exact E|right; exact (IH H)].
Qed.

Lemma dict_del_NoDup {V : Type} (k : string) (d : dict V) :
  NoDup (List.map fst d) -> NoDup (List.map fst (dict_del k d)).
Proof.
  induction d as [|[k0 v0] rest IH]; cbn; [auto|].
  intros Hnd. apply NoDup_cons in Hnd. destruct Hnd as [Hnot Hnd].
  destruct (String.eqb k k0); cbn; [exact Hnd|].
  apply NoDup_cons. split; [|exact (IH Hnd)].
  intros Hin. apply Hnot. apply list_elem_of_In.
  apply list_elem_of_In in Hin. exact (dict_del_keys k k0 rest Hin).
Qed.

Lemma cleaned_NoDup (s : t) :
  NoDup (List.map fst (active_debates s)) ->
  NoDup (List.map fst (active_debates (cleaned s))).
Proof.
  intros Hnd. unfold cleaned. destruct (_ <? _); [|exact Hnd].
  destruct (oldest_completed _ None None) as [k0|]; [|exact Hnd].
  destruct (String.eqb k0 ""); [exact Hnd|].
  cbn [active_debates]. apply dict_del_NoDup. exact Hnd.
Qed.

(** The keys of the table stay distinct, as those of a dict are. *)
Lemma process_response_NoDup (cosine : Vec -> Vec -> Q) (now : Z)
    (response : Response) (agent : string) (s : t) :
  NoDup (List.map fst (active_debates s)) ->
  NoDup (List.map fst (active_debates
           (final_state (process_response cosine now response agent s)))).
Proof.
  intros Hnd.
  assert (Hin : NoDup (List.map fst (active_debates
                         (ingested now response agent s))))
    by (unfold ingested; cbn [active_debates]; apply dict_set_NoDup, Hnd).
  destruct (process_response_state cosine now response agent s) as [-> | ->];
    [exact Hin|].
  apply cleaned_NoDup. unfold marked.
  destruct (dict_get _ _); [|exact Hin].
  cbn [active_debates]. apply dict_set_NoDup, Hin.
Qed.

End EvictionFacts.

Module EvictionClaims.
Import ClaudeAgent ClaudeFacts ArbitrationFacts EvictionFacts.

(** What C6 asks of the table. *)
Definition within_cap (s : t) : Prop :=
  Z.of_nat (length (active_debates s)) <= MAX_HISTORY_SIZE (CONFIG s).

(** One response for each debate id, at instant 0, filed in order. *)
Fixpoint open_debates (cosine : Vec -> Vec -> Q) (ids : list string)
    : M t unit :=
  match ids with
  | [] => ret tt
  | id :: rest =>
      process_response cosine 0
        {| debate_id := Some id; round := Some 0; content := Some "opening";
           confidence := Some (7 # 10); reasoning := None |} "GPT";;
      open_debates cosine rest
  end.

Definition eleven_ids : list string :=
  ["d0"; "d1"; "d2"; "d3"; "d4"; "d5"; "d6"; "d7"; "d8"; "d9"; "d10"].

(** C6, as stated, fails: eleven debates opened by one response each are
    all tracked, under a cap of 10; nothing is evicted because nothing was
    arbitrated. *)
Lemma within_cap_fails :
  within_cap (init default_config) /\
  ~ within_cap
      (final_state (open_debates (fun _ _ => 0%Q) eleven_ids
                      (init default_config))).
Proof.
  split.
  - unfold within_cap. cbn. lia.
  - unfold within_cap. vm_compute. intros H. apply H. reflexivity.
Qed.

(** C6, amended. Only the cleanup that ends final arbitration removes
    debates, and [process_response] leaves the table either as filed or as
    filed, marked completed and cleaned up. The cleanup adds nothing and
    removes at most one debate; a debate it removes was completed, started
    no later than any other completed debate, and the table held more than
    [MAX_HISTORY_SIZE] debates; a debate with status [active] stays. *)
Theorem cleanup_evicts_oldest_completed (s : t) :
  NoDup (List.map fst (active_debates s)) ->
  let s' := final_state (cleanup s) in
  outcome (cleanup s) = Ok tt /\
  CONFIG s' = CONFIG s /\
  (forall k d, In (k, d) (active_debates s') -> In (k, d) (active_debates s)) /\
  (length (active_debates s) <= S (length (active_debates s')))%nat /\
  (forall k d,
     In (k, d) (active_debates s) -> ~ In (k, d) (active_debates s') ->
     status d = completed /\
     MAX_HISTORY_SIZE (CONFIG s) < Z.of_nat (length (active_debates s)) /\
     forall k' d', In (k', d') (active_debates s) -> status d' = completed ->
                   start_time d <= start_time d') /\
  (forall k d,
     In (k, d) (active_debates s) -> status d = active ->
     In (k, d) (active_debates s')) /\
  (forall (cosine : Vec -> Vec -> Q) (now : Z) (response : Response)
          (agent : string),
     let filed := ingested now response agent s in
     let after := final_state (process_response cosine now response agent s) in
     after = filed \/
     after = final_state (cleanup (marked (id_of response) filed))).
Proof.
  intros Hnd. cbv zeta. rewrite cleanup_run.
  unfold outcome, final_state. cbn [fst snd].
  assert (Hevict : forall k d,
            In (k, d) (active_debates s) ->
            ~ In (k, d) (active_debates (cleaned s)) ->
            status d = completed /\
            MAX_HISTORY_SIZE (CONFIG s) < Z.of_nat (length (active_debates s)) /\
            forall k' d', In (k', d') (active_debates s) ->
                          status d' = completed ->
                          start_time d <= start_time d').
  { intros k d Hin Hout. unfold cleaned in Hout.
    destruct (Z.ltb_spec (MAX_HISTORY_SIZE (CONFIG s))
                (Z.of_nat (length (active_debates s)))) as [Hover|_];
      [|contradiction].
    pose proof (oldest_completed_spec (active_debates s)) as Hold.
    destruct (oldest_completed (active_debates s) None None) as [k0|];
      [|contradiction].
    destruct (String.eqb k0 ""); [contradiction|].
    cbn [active_debates] in Hout.
    destruct (String.eqb_spec k0 k) as [->|Hne].
    - destruct Hold as (d0 & Hin0 & Hc0 & Hmin).
      assert (d0 = d).
      { apply (dict_In_get _ _ _ Hnd) in Hin0.
        apply (dict_In_get _ _ _ Hnd) in Hin. congruence. }
      subst d0. auto.
    - exfalso. apply Hout. apply dict_del_other; assumption. }
  split; [reflexivity|].
  split.
  { unfold cleaned. destruct (_ <? _); [|reflexivity].
    destruct (oldest_completed _ None None) as [k0|]; [|reflexivity].
    destruct (String.eqb k0 ""); reflexivity. }
  split.
  { intros k d. unfold cleaned. destruct (_ <? _); [|tauto].
    destruct (oldest_completed _ None None) as [k0|]; [|tauto].
    destruct (String.eqb k0 ""); [tauto|].
    cbn [active_debates]. apply dict_del_In. }
  split.
  { unfold cleaned. destruct (_ <? _); [|lia].
    destruct (oldest_completed _ None None) as [k0|]; [|lia].
    destruct (String.eqb k0 ""); [lia|].
    cbn [active_debates]. apply dict_del_length_le. }
  split; [exact Hevict|].
  split.
  { intros k d Hin Hact. unfold cleaned. destruct (_ <? _); [|exact Hin].
    pose proof (oldest_completed_spec (active_debates s)) as Hold.
    destruct (oldest_completed (active_debates s) None None) as [k0|];
      [|exact Hin].
    destruct (String.eqb k0 ""); [exact Hin|].
    cbn [active_debates].
    destruct (String.eqb_spec k0 k) as [->|Hne].
    - destruct Hold as (d0 & Hin0 & Hc0 & _).
      apply (dict_In_get _ _ _ Hnd) in Hin0.
      apply (dict_In_get _ _ _ Hnd) in Hin. congruence.
    - apply dict_del_other; assumption. }
  intros cosine now response agent. cbv zeta.
  rewrite cleanup_run.
  change (final_state (Ok tt, cleaned (marked (id_of response)
            (ingested now response agent s)), []))
    with (cleaned (marked (id_of response) (ingested now response agent s))).
  apply process_response_state.
Qed.

(** Three debates under a cap of one: two completed, one still active
    although it started first. *)
Definition small_cap : Config :=
  {| REDIS_CHANNEL_MOD := "moderation_channel";
     REDIS_CHANNEL_RES := "responses_channel";
     REDIS_CHANNEL_ARB := "arbitration_channel";
     CONFIDENCE_THRESHOLD := 25 # 100;
     CONSENSUS_THRESHOLD := 15 # 100;
     MIN_DEBATE_ROUNDS := 2;
     MAX_DEBATE_ROUNDS := 4;
     CACHING_ENABLED := true;
     CACHE_TTL := 300;
     ENABLE_DEADLOCK_DETECTION := true;
     DEBATE_TIMEOUT := 30;
     MAX_HISTORY_SIZE := 1 |}.

Definition debate_of (st : Status) (started : Z) : Debate :=
  {| rounds := ∅; status := st; start_time := started |}.

Definition crowded : t :=
  {| CONFIG := small_cap;
     active_debates :=
       [("new", debate_of completed 5);
        ("live", debate_of active 0);
        ("old", debate_of completed 1)];
     model := None |}.

Lemma cleanup_evicts_oldest_completed_witness :
  active_debates (final_state (cleanup crowded))
    = [("new", debate_of completed 5); ("live", debate_of active 0)] /\
  In ("live", debate_of active 0)
     (active_debates (final_state (cleanup crowded))) /\
  (length (active_debates crowded)
     <= S (length (active_debates (final_state (cleanup crowded)))))%nat.
Proof.
  assert (Hnd : NoDup (List.map fst (active_debates crowded))).
  { apply (bool_decide_unpack _). vm_compute. exact I. }
  destruct (cleanup_evicts_oldest_completed crowded Hnd)
    as (_ & _ & _ & Hlen & _ & Hstay & _).
  split; [reflexivity|]. split; [|exact Hlen].
  apply Hstay; [|reflexivity]. cbn. tauto.
Defined.

End EvictionClaims.

(** * Properties of the cache *)

Module CacheFacts.

Section Laws.
Variable Messages : Type.
Variable Json : Type.
Variable dumps_messages : Messages -> string.
Variable dumps : Json -> string.
Variable loads : string -> Json.
Variable hash : string -> Z.
Variable str : Z -> string.
Variable cfg : Config.

(** [json.loads] undoes [json.dumps], and no JSON text is empty. *)
Hypothesis loads_dumps : forall j : Json, loads (dumps j) = j.
Hypothesis dumps_nonempty : forall j : Json, dumps j <> "".

Local Abbreviation key := (cache_key Messages dumps_messages hash str).
Local Abbreviation claude :=
  (call_claude_api Messages Json dumps_messages dumps loads hash str cfg).
Local Abbreviation gpt :=
  (call_gpt_api Messages Json dumps_messages dumps loads hash str cfg).

(** Requests with the same serialization share their key. *)
Lemma cache_key_deterministic (agent_name : string) (m1 m2 : Messages) :
  dumps_messages m1 = dumps_messages m2 ->
  key agent_name m1 = key agent_name m2.
Proof. intros H. unfold cache_key. rewrite H. reflexivity. Qed.

Lemma truthy_dumps (j : Json) : truthy (Some (dumps j)) = true.
Proof.
  pose proof (dumps_nonempty j) as H. unfold truthy.
  destruct (dumps j); [congruence|reflexivity].
Qed.

(** A cached, unexpired response is returned as it was stored: no model
    call, no change. *)
Lemma call_claude_api_hit (messages : Messages) (w : Net Json) (body : Json)
    (expires : Z) :
  CACHING_ENABLED cfg = true ->
  redis w !! key ClaudeAgent.agent_name messages
    = Some (dumps body, Some expires) ->
  clock w < expires ->
  claude messages w = (Ok (Some body), w, []).
Proof.
  intros Hon Hget Hlive. unfold call_claude_api. rewrite Hon.
  assert (E : redis_get Json (key ClaudeAgent.agent_name messages) w
              = (Ok (Some (dumps body)), w, [])).
  { unfold redis_get, bind, get. rewrite Hget.
    apply Z.ltb_lt in Hlive. rewrite Hlive. reflexivity. }
  erewrite run_bind_silent by exact E.
  rewrite truthy_dumps. cbn [andb]. unfold ret. rewrite loads_dumps.
  reflexivity.
Qed.

(** On a miss answered with status 200, the response is returned and
    stored to expire [CACHE_TTL] seconds later. *)
Lemma call_claude_api_store (messages : Messages) (w : Net Json) (body : Json)
    (rest : list (http_reply Json)) :
  CACHING_ENABLED cfg = true ->
  redis w !! key ClaudeAgent.agent_name messages = None ->
  pending w = Status 200 body :: rest ->
  claude messages w
    = (Ok (Some body),
       mkNet (<[key ClaudeAgent.agent_name messages
                  := (dumps body, Some (clock w + CACHE_TTL cfg))]> (redis w))
             (clock w) rest (posts w + 1),
       []).
Proof.
  intros Hon Hget Hpend. unfold call_claude_api. rewrite Hon.
  assert (E : redis_get Json (key ClaudeAgent.agent_name messages) w
              = (Ok None, w, [])).
  { unfold redis_get, bind, get. rewrite Hget. reflexivity. }
  erewrite run_bind_silent by exact E.
  cbn [truthy andb retry_loop Z.ltb Z.compare].
  assert (P : post Json w
              = (Ok (Status 200 body),
                 mkNet (redis w) (clock w) rest (posts w + 1), [])).
  { unfold post, bind, get, put, ret. rewrite Hpend. reflexivity. }
  erewrite run_bind_silent by exact P.
  cbn [Z.eqb Pos.eqb]. rewrite Hon. reflexivity.
Qed.

(** The refiner's call stores its response for 3600 seconds, whatever
    [CACHE_TTL] says. *)
Lemma call_gpt_api_store (messages : Messages) (w : Net Json) (body : Json)
    (rest : list (http_reply Json)) :
  CACHING_ENABLED cfg = true ->
  redis w !! key "GPT-4o" messages = None ->
  pending w = Status 200 body :: rest ->
  gpt messages w
    = (Ok (Some body),
       mkNet (<[key "GPT-4o" messages
                  := (dumps body, Some (clock w + 3600))]> (redis w))
             (clock w) rest (posts w + 1),
       []).
Proof.
  intros Hon Hget Hpend. unfold call_gpt_api. cbv zeta. rewrite Hon.
  assert (E : redis_get Json (key "GPT-4o" messages) w = (Ok None, w, [])).
  { unfold redis_get, bind, get. rewrite Hget. reflexivity. }
  erewrite run_bind_silent by exact E.
  cbn [truthy andb].
  assert (P : post Json w
              = (Ok (Status 200 body),
                 mkNet (redis w) (clock w) rest (posts w + 1), [])).
  { unfold post, bind, get, put, ret. rewrite Hpend. reflexivity. }
  erewrite run_bind_silent by exact P.
  reflexivity.
Qed.

Lemma call_gpt_api_hit (messages : Messages) (w : Net Json) (body : Json)
    (expires : Z) :
  CACHING_ENABLED cfg = true ->
  redis w !! key "GPT-4o" messages = Some (dumps body, Some expires) ->
  clock w < expires ->
  gpt messages w = (Ok (Some body), w, []).
Proof.
  intros Hon Hget Hlive. unfold call_gpt_api. cbv zeta. rewrite Hon.
  assert (E : redis_get Json (key "GPT-4o" messages) w
              = (Ok (Some (dumps body)), w, [])).
  { unfold redis_get, bind, get. rewrite Hget.
    apply Z.ltb_lt in Hlive. rewrite Hlive. reflexivity. }
  erewrite run_bind_silent by exact E.
  rewrite truthy_dumps. cbn [andb]. unfold ret. rewrite loads_dumps.
  reflexivity.
Qed.

(** The arbiter's call, twice within [CACHE_TTL]: the second returns what
    the first did, and the model was called once. *)
Lemma call_claude_api_once (messages : Messages) (w : Net Json) (body : Json)
    (rest : list (http_reply Json)) (later : Z) :
  CACHING_ENABLED cfg = true ->
  redis w !! key ClaudeAgent.agent_name messages = None ->
  pending w = Status 200 body :: rest ->
  0 <= later < CACHE_TTL cfg ->
  let r := (claude messages;; sleep Json later;; claude messages) w in
  outcome r = Ok (Some body) /\
  posts (final_state r) = posts w + 1.
Proof.
  intros Hon Hget Hpend Hlater. cbv zeta.
  erewrite run_bind_silent
    by (apply call_claude_api_store; eassumption).
  erewrite run_bind_silent by reflexivity.
  erewrite call_claude_api_hit; [split; reflexivity|exact Hon| |].
  - cbn [redis]. apply lookup_insert_eq.
  - cbn [clock]. lia.
Qed.

End Laws.

End CacheFacts.

Module CacheClaims.

(** Stand-ins for what the interpreter provides: a request is a list of
    role and content pairs, a response is its text, [json.dumps] brackets
    it, [hash] adds up character codes and [str] prints decimals. *)
Definition request : Type := list (string * string).

Definition dumps_request (messages : request) : string :=
  join ","
    (List.map (fun m => String.append (fst m) (String.append ":" (snd m)))
       messages).

Definition dumps_text (body : string) : string :=
  String.append "[" (String.append body "]").

Fixpoint drop_last (s : string) : string :=
  match s with
  | EmptyString => EmptyString
  | String c EmptyString => EmptyString
  | String c rest => String c (drop_last rest)
  end.

Definition loads_text (text : string) : string :=
  match text with
  | EmptyString => EmptyString
  | String _ rest => drop_last rest
  end.

Fixpoint code_sum (s : string) : Z :=
  match s with
  | EmptyString => 0
  | String c rest => Z.of_nat (nat_of_ascii c) + code_sum rest
  end.

Definition decimal (z : Z) : string := NilZero.string_of_int (Z.to_int z).

Definition refine_this : request :=
  [("system", "Refine this response for clarity and precision.");
   ("user", "caches are keyed by request")].

Definition gpt_call (cfg : Config)
    : M (Net string) (option string) :=
  call_gpt_api request string dumps_request dumps_text loads_text
    code_sum decimal cfg refine_this.

Definition claude_call (cfg : Config)
    : M (Net string) (option string) :=
  call_claude_api request string dumps_request dumps_text loads_text
    code_sum decimal cfg refine_this.

Definition key_of (agent_name : string) : string :=
  cache_key request dumps_request code_sum decimal agent_name refine_this.

(** An empty Redis at instant 0, and a model that answers 200 once. *)
Definition fresh : Net string :=
  mkNet ∅ 0 [Status 200 "caches are keyed by the request"] 0.

Lemma drop_last_bracket (body : string) :
  drop_last (String.append body "]") = body.
Proof.
  induction body as [|c rest IH]; [reflexivity|].
  destruct rest as [|c' rest']; [reflexivity|].
  change (drop_last (String.append (String c (String c' rest')) "]"))
    with (String c (drop_last (String.append (String c' rest') "]"))).
  rewrite IH. reflexivity.
Qed.

Lemma loads_dumps_text (body : string) : loads_text (dumps_text body) = body.
Proof. exact (drop_last_bracket body). Qed.

(** The arbiter's call on these stand-ins: two identical requests 299
    seconds apart cost one model call. *)
Example claude_call_twice :
  let r := (claude_call default_config;; sleep string 299;;
            claude_call default_config) fresh in
  outcome r = Ok (Some "caches are keyed by the request") /\
  posts (final_state r) = posts fresh + 1.
Proof.
  assert (Hne : forall j : string, dumps_text j <> "") by discriminate.
  apply (CacheFacts.call_claude_api_once request string dumps_request
           dumps_text loads_text code_sum decimal default_config
           loads_dumps_text Hne refine_this fresh
           "caches are keyed by the request" []).
  - reflexivity.
  - reflexivity.
  - reflexivity.
  - cbn. lia.
Qed.

(** C7. Under the default configuration, [CACHE_TTL] is 300 seconds, and
    the arbiter's call stores its response to expire 300 seconds later; the
    refiner's call stores it to expire 3600 seconds later, so a lookup 1000
    seconds after the call is still answered from the cache, without a
    model call. *)
Theorem call_gpt_api_ignores_cache_ttl :
  CACHE_TTL default_config = 300 /\
  redis (final_state (claude_call default_config fresh)) !! key_of "Claude"
    = Some (dumps_text "caches are keyed by the request", Some 300) /\
  redis (final_state (gpt_call default_config fresh)) !! key_of "GPT-4o"
    = Some (dumps_text "caches are keyed by the request", Some 3600) /\
  let r := (gpt_call default_config;; sleep string 1000;;
            gpt_call default_config) fresh in
  outcome r = Ok (Some "caches are keyed by the request") /\
  posts (final_state r) = 1.
Proof.
  split; [reflexivity|].
  split; [vm_compute; reflexivity|].
  split; [vm_compute; reflexivity|].
  cbv zeta. split; vm_compute; reflexivity.
Qed.

End CacheClaims.

(** * The moderator over whole runs *)

Lemma swallow_run {S : Type} (m : M S unit) (s : S) :
  outcome (BaseAgent.swallow m s) = Ok tt /\
  final_state (BaseAgent.swallow m s) = final_state (m s) /\
  events (BaseAgent.swallow m s) = events (m s).
Proof.
  unfold BaseAgent.swallow, outcome, final_state, events.
  destruct (m s) as [[[[]|e] s1] ev]; cbn; auto.
Qed.

Module ModeratorRuns.
Import GrokAgent.
Import DSMFacts DSMClaims GrokFacts.

(** What holds of a moderator however it was driven: indices in range, a
    stagnation counter of 0, or of 1 right after the phase wrapped, no
    encoder on the state machine, and a history within the cap. *)
Definition steady (cfg : Config) (s : t) : Prop :=
  let sm := state_machine s in
  0 <= DSM.state_idx sm < 4 /\
  0 <= DSM.current_speaker_idx sm < 3 /\
  0 <= DSM.turns_since_progress sm <= 1 /\
  (DSM.turns_since_progress sm = 1 -> DSM.state_idx sm = 0) /\
  DSM.sentence_model sm = None /\
  Z.of_nat (length (history s)) <= Z.max 0 (MAX_HISTORY_SIZE cfg).

(** Neither [loop_detected] nor [kill_switch]. *)
Definition no_flag (e : event) : Prop :=
  match e with
  | WsSend (PFlag _ _) => False
  | RedisPublish _ (PFlag _ _) => False
  | _ => True
  end.

(** The messages of a run, each with the instant it is handled at. *)
Fixpoint run (cfg : Config) (cos_sim : Vec -> Vec -> Q)
    (messages : list (Z * string * BaseAgent.wire)) : M t unit :=
  match messages with
  | [] => ret tt
  | (now, channel, data) :: rest =>
      Handlers.moderator_listens cfg cos_sim now channel data;;
      run cfg cos_sim rest
  end.

Lemma init_steady (cfg : Config) (encode : Encoder) : steady cfg (init encode).
Proof. unfold steady. cbn. repeat split; try lia; discriminate. Qed.

Lemma remember_within (cfg : Config) (history : list string)
    (content : string) :
  Z.of_nat (length history) <= Z.max 0 (MAX_HISTORY_SIZE cfg) ->
  Z.of_nat (length (remember cfg history content))
    <= Z.max 0 (MAX_HISTORY_SIZE cfg).
Proof.
  intros H. unfold remember.
  destruct (Z.ltb_spec (MAX_HISTORY_SIZE cfg)
              (Z.of_nat (length (history ++ [content])))) as [Hgt|Hle].
  - destruct history as [|x rest]; cbn [app tl length] in *; [lia|].
    rewrite length_app. cbn [length]. lia.
  - lia.
Qed.

Lemma turned_steady (sm : DSM.t) :
  0 <= DSM.state_idx sm < 4 ->
  (DSM.turns_since_progress sm = 1 -> DSM.state_idx sm = 0) ->
  0 <= DSM.turns_since_progress sm <= 1 ->
  0 <= DSM.turns_since_progress (turned sm) <= 1 /\
  (DSM.turns_since_progress (turned sm) = 1 -> DSM.state_idx (turned sm) = 0).
Proof.
  destruct sm as [i sp n m]. cbn. intros Hp Hone Ht.
  assert (Hcases : i = 0 \/ i = 1 \/ i = 2 \/ i = 3) by lia.
  destruct Hcases as [ -> | [ -> | [ -> | -> ] ] ];
    repeat match goal with
           | |- context [(?a + 1) mod 4] =>
               let v := eval vm_compute in ((a + 1) mod 4) in
               change ((a + 1) mod 4) with v
           end;
    cbn; lia.
Qed.

(** One response on a steady moderator: it completes with a [next_turn]
    when the history ends up shorter than two, and is left by the
    [AttributeError] of [detect_loop] otherwise. *)
Lemma process_response_steady (cfg : Config) (cos_sim : Vec -> Vec -> Q)
    (now : Z) (response : Response) (agent : string) (s : t) :
  steady cfg s ->
  let history' :=
    remember cfg (history s) (get_default (content response) "") in
  let r := process_response cfg cos_sim now response agent s in
  steady cfg (final_state r) /\
  Forall no_flag (events r) /\
  history (final_state r) = history' /\
  ((length history' < 2)%nat ->
     outcome r = Ok tt /\
     state_machine (final_state r) = turned (state_machine s)) /\
  ((2 <= length history')%nat ->
     outcome r = Raise (AttributeError "DebateStateMachine" "sentence_model") /\
     state_machine (final_state r) = state_machine s /\
     events r = [receipt now response s]).
Proof.
  intros (Hp & Hs & Ht & Hone & Hmodel & Hcap). cbv zeta.
  pose proof (remember_within cfg (history s)
                (get_default (content response) "") Hcap) as Hcap'.
  destruct (Nat.lt_ge_cases
              (length (remember cfg (history s)
                         (get_default (content response) ""))) 2)
    as [Hshort|Hlong].
  - assert (Hd : ENABLE_DEADLOCK_DETECTION cfg
                 && (3 <=? DSM.turns_since_progress (state_machine s))
                 = false).
    { destruct (Z.leb_spec 3 (DSM.turns_since_progress (state_machine s)));
        [lia|apply andb_false_r]. }
    rewrite (process_response_next_turn cfg cos_sim now response agent s
               Hp Hs (detect_loop_short cos_sim _ _ Hshort) Hd).
    unfold final_state, events, outcome. cbn [fst snd].
    destruct (turned_steady (state_machine s) Hp Hone Ht) as [Ht' Hone'].
    split.
    { unfold steady. cbn [state_machine history].
      repeat split; try (cbn; apply Z.mod_pos_bound; lia);
        try (apply Ht'); try exact Hone'; try exact Hmodel; exact Hcap'. }
    split; [repeat constructor|].
    split; [reflexivity|].
    split; [auto|lia].
  - rewrite (process_response_raises cfg cos_sim now response agent s
               Hp Hs _ (detect_loop_no_model cos_sim _ _ Hmodel Hlong)).
    unfold final_state, events, outcome. cbn [fst snd].
    split.
    { unfold steady. cbn [state_machine history]. repeat split; try lia;
        try exact Hone; try exact Hmodel; exact Hcap'. }
    split; [repeat constructor|].
    split; [reflexivity|].
    split; [lia|auto].
Qed.

Lemma process_moderation_steady (cfg : Config) (state : string) (s : t) :
  steady cfg s ->
  let r := process_moderation state s in
  outcome r = Ok tt /\ steady cfg (final_state r) /\ events r = [].
Proof.
  intros Hst. pose proof Hst as (Hp & Hs & Ht & Hone & Hmodel & Hcap).
  cbv zeta. unfold process_moderation.
  destruct (String.eqb state "loop_detected" || String.eqb state "kill_switch").
  { split; [reflexivity|]. split; [exact Hst|reflexivity]. }
  destruct (String.eqb state "continue").
  { split; [reflexivity|]. split; [|reflexivity].
    unfold steady. cbn. repeat split; try lia; auto. }
  destruct (String.eqb state "timeout").
  { split; [reflexivity|]. split; [|reflexivity].
    unfold steady. cbn. repeat split; try lia; auto. }
  split; [reflexivity|]. split; [exact Hst|reflexivity].
Qed.

Lemma moderator_listens_steady (cfg : Config) (cos_sim : Vec -> Vec -> Q)
    (now : Z) (channel : string) (data : BaseAgent.wire) (s : t) :
  steady cfg s ->
  let r := Handlers.moderator_listens cfg cos_sim now channel data s in
  outcome r = Ok tt /\ steady cfg (final_state r) /\
  Forall no_flag (events r).
Proof.
  intros Hst. cbv zeta.
  unfold Handlers.moderator_listens, BaseAgent._listen_responses.
  match goal with
  | |- context [BaseAgent.swallow ?m s] =>
      destruct (swallow_run m s) as (Ho & Hf & He)
  end.
  rewrite Ho, Hf, He. split; [reflexivity|]. clear Ho Hf He.
  destruct (String.eqb channel (REDIS_CHANNEL_RES cfg)).
  - unfold Handlers.moderator_response.
    destruct (BaseAgent.wire_response data) as [response|].
    + destruct (process_response_steady cfg cos_sim now response
                  (BaseAgent.wire_agent data) s Hst) as (H1 & H2 & _).
      auto.
    + split; [exact Hst|constructor].
  - destruct (String.eqb channel (REDIS_CHANNEL_MOD cfg));
      [|split; [exact Hst|constructor]].
    destruct (BaseAgent.nonempty (BaseAgent.wire_state data));
      [|split; [exact Hst|constructor]].
    unfold Handlers.moderator_moderation.
    destruct (process_moderation_steady cfg (BaseAgent.wire_state data) s Hst)
      as (_ & H1 & H2).
    rewrite H2. split; [exact H1|constructor].
Qed.

Lemma run_steady (cfg : Config) (cos_sim : Vec -> Vec -> Q)
    (messages : list (Z * string * BaseAgent.wire)) (s : t) :
  steady cfg s ->
  let r := run cfg cos_sim messages s in
  outcome r = Ok tt /\ steady cfg (final_state r) /\
  Forall no_flag (events r).
Proof.
  revert s. induction messages as [|[[now channel] data] rest IH];
    intros s Hst; cbv zeta.
  - cbn. auto.
  - cbn [run].
    destruct (moderator_listens_steady cfg cos_sim now channel data s Hst)
      as (Ho & Hst1 & Hev1).
    unfold bind.
    destruct (Handlers.moderator_listens cfg cos_sim now channel data s)
      as [[r1 s1] ev1].
    unfold outcome, final_state, events in Ho, Hst1, Hev1.
    cbn [fst snd] in Ho, Hst1, Hev1. subst r1.
    destruct (IH s1 Hst1) as (Ho2 & Hst2 & Hev2).
    destruct (run cfg cos_sim rest s1) as [[r2 s2] ev2].
    unfold outcome, final_state, events in *. cbn [fst snd] in *.
    split; [exact Ho2|]. split; [exact Hst2|].
    apply Forall_app. split; assumption.
Qed.

(** X1. A moderator built by [__init__] never sends or publishes
    [loop_detected] or [kill_switch], whatever messages it is given: its
    stagnation counter never passes 1, so [detect_deadlock] stays false,
    and its listener never stops on an exception. *)
Theorem moderator_never_flags (cfg : Config) (cos_sim : Vec -> Vec -> Q)
    (encode : Encoder) (messages : list (Z * string * BaseAgent.wire)) :
  let r := run cfg cos_sim messages (init encode) in
  outcome r = Ok tt /\
  Forall no_flag (events r) /\
  DSM.turns_since_progress (state_machine (final_state r)) <= 1 /\
  outcome (DSM.detect_deadlock (state_machine (final_state r))) = Ok false.
Proof.
  cbv zeta.
  destruct (run_steady cfg cos_sim messages (init encode)
              (init_steady cfg encode))
    as (Ho & (_ & _ & Ht & _) & Hev).
  split; [exact Ho|]. split; [exact Hev|]. split; [lia|].
  rewrite detect_deadlock_run. unfold outcome. cbn [fst]. f_equal.
  apply Z.leb_gt. lia.
Qed.

(** X2. However many messages a moderator built by [__init__] handles, its
    history holds at most [MAX_HISTORY_SIZE] contents (none for a negative
    cap) and its phase and speaker indices stay valid indices. *)
Theorem moderator_stays_in_bounds (cfg : Config) (cos_sim : Vec -> Vec -> Q)
    (encode : Encoder) (messages : list (Z * string * BaseAgent.wire)) :
  let s := final_state (run cfg cos_sim messages (init encode)) in
  Z.of_nat (length (history s)) <= Z.max 0 (MAX_HISTORY_SIZE cfg) /\
  0 <= DSM.state_idx (state_machine s) < Z.of_nat (length DSM.states) /\
  0 <= DSM.current_speaker_idx (state_machine s)
    < Z.of_nat (length DSM.speakers) /\
  (exists phase, outcome (DSM.current_state (state_machine s)) = Ok phase) /\
  (exists speaker,
     outcome (DSM.current_speaker (state_machine s)) = Ok speaker).
Proof.
  cbv zeta.
  destruct (run_steady cfg cos_sim messages (init encode)
              (init_steady cfg encode))
    as (_ & (Hp & Hs & _ & _ & _ & Hcap) & _).
  split; [exact Hcap|]. split; [exact Hp|]. split; [exact Hs|].
  split.
  - eexists. rewrite current_state_run by exact Hp. reflexivity.
  - eexists. rewrite current_speaker_run by exact Hs. reflexivity.
Qed.

(** X3. On a moderator as any run leaves it, a response is handled to
    the end, with one [next_turn], exactly when the history then holds fewer
    than two contents; otherwise the handler is left by the
    [AttributeError] of [detect_loop], the content recorded and the state
    machine untouched. Under a cap of 1 or less every response is handled to
    the end. *)
Theorem moderator_completes_on_short_history (cfg : Config)
    (cos_sim : Vec -> Vec -> Q) (now : Z) (response : Response)
    (agent : string) (s : t) :
  steady cfg s ->
  let history' :=
    remember cfg (history s) (get_default (content response) "") in
  let r := process_response cfg cos_sim now response agent s in
  (outcome r = Ok tt <-> (length history' < 2)%nat) /\
  (outcome r = Ok tt ->
     state_machine (final_state r) = turned (state_machine s)) /\
  (outcome r <> Ok tt ->
     outcome r = Raise (AttributeError "DebateStateMachine" "sentence_model") /\
     state_machine (final_state r) = state_machine s) /\
  history (final_state r) = history' /\
  (MAX_HISTORY_SIZE cfg <= 1 -> outcome r = Ok tt).
Proof.
  intros Hst. cbv zeta.
  destruct (process_response_steady cfg cos_sim now response agent s Hst)
    as (Hst' & _ & Hh & Hshort & Hlong).
  pose proof Hst as (_ & _ & _ & _ & _ & Hcap).
  pose proof (remember_within cfg (history s)
                (get_default (content response) "") Hcap) as Hcap'.
  destruct (Nat.lt_ge_cases
              (length (remember cfg (history s)
                         (get_default (content response) ""))) 2)
    as [Hlt|Hge].
  - destruct (Hshort Hlt) as [Ho Hsm].
    split; [tauto|]. split; [auto|]. split; [congruence|].
    split; [exact Hh|auto].
  - destruct (Hlong Hge) as (Ho & Hsm & _).
    split; [split; [rewrite Ho; discriminate|lia]|].
    split; [rewrite Ho; discriminate|].
    split; [auto|]. split; [exact Hh|]. intros Hsmall. exfalso. lia.
Qed.

Lemma moderator_completes_on_short_history_witness :
  let r := process_response default_config GrokClaims.flat_cos_sim 0
             (GrokClaims.say "first answer") "GPT"
             (init GrokClaims.flat_encoder) in
  outcome r = Ok tt /\
  state_machine (final_state r) = DSM.mk 1 1 0 None /\
  history (final_state r) = ["first answer"].
Proof.
  destruct (moderator_completes_on_short_history default_config
              GrokClaims.flat_cos_sim 0 (GrokClaims.say "first answer") "GPT"
              (init GrokClaims.flat_encoder)
              (init_steady default_config GrokClaims.flat_encoder))
    as (Hiff & Hsm & _ & Hh & _).
  assert (Ho : outcome (process_response default_config
                 GrokClaims.flat_cos_sim 0 (GrokClaims.say "first answer")
                 "GPT" (init GrokClaims.flat_encoder)) = Ok tt)
    by (apply Hiff; vm_compute; lia).
  split; [exact Ho|]. split; [exact (Hsm Ho)|exact Hh].
Defined.

End ModeratorRuns.

(** * The arbiter over whole operations *)

Module ArbiterFacts.
Import ClaudeAgent ClaudeFacts ArbitrationFacts EvictionFacts.




Lemma dict_get_del_ne {V : Type} (k k0 : string) (d : dict V) :
  k <> k0 -> dict_get k (dict_del k0 d) = dict_get k d.
Proof.
  intros Hne. induction d as [|[k1 v1] rest IH]; [reflexivity|].
  cbn [dict_del dict_get].
  destruct (String.eqb_spec k0 k1) as [->|Hk].
  - destruct (String.eqb_spec k k1); [congruence|reflexivity].
  - cbn [dict_get]. rewrite IH. reflexivity.
Qed.

Lemma dict_get_del_eq {V : Type} (k : string) (d : dict V) :
  NoDup (List.map fst d) -> dict_get k (dict_del k d) = None.
Proof.
  induction d as [|[k1 v1] rest IH]; [reflexivity|].
  cbn [List.map fst]. intros Hnd. apply NoDup_cons in Hnd.
  destruct Hnd as [Hnot Hnd]. cbn [dict_del].
  destruct (String.eqb_spec k k1) as [->|Hk].
  - destruct (dict_get k1 rest) as [v|] eqn:E; [|reflexivity].
    exfalso. apply Hnot. apply list_elem_of_In.
    apply dict_get_In in E. apply (in_map fst) in E. exact E.
  - cbn [dict_get]. destruct (String.eqb_spec k k1); [congruence|].
    exact (IH Hnd).
Qed.

Lemma dict_get_set (V : Type) (k k' : string) (v : V) (d : dict V) :
  dict_get k' (dict_set k v d)
    = if String.eqb k k' then Some v else dict_get k' d.
Proof.
  destruct (String.eqb_spec k k') as [->|Hne].
  - apply dict_get_set_eq.
  - apply dict_get_set_ne. exact Hne.
Qed.


(** A debate still tracked after cleanup is the debate it was. *)
Lemma cleaned_get (s : t) (k : string) (d : Debate) :
  NoDup (List.map fst (active_debates s)) ->
  dict_get k (active_debates (cleaned s)) = Some d ->
  dict_get k (active_debates s) = Some d.
Proof.
  intros Hnd. unfold cleaned. destruct (_ <? _); [|auto].
  destruct (oldest_completed _ None None) as [k0|]; [|auto].
  destruct (String.eqb k0 ""); [auto|]. cbn [active_debates].
  destruct (String.eqb_spec k k0) as [->|Hne].
  - rewrite dict_get_del_eq by exact Hnd. discriminate.
  - rewrite dict_get_del_ne by exact Hne. auto.
Qed.

(** ** The latest round *)

Lemma fold_max_spec (ks : list Z) (k : Z) :
  In (fold_left Z.max ks k) (k :: ks) /\
  forall x, In x (k :: ks) -> x <= fold_left Z.max ks k.
Proof.
  revert k. induction ks as [|k1 ks IH]; intros k; cbn [fold_left].
  - split; [left; reflexivity|]. intros x [<-|[]]. lia.
  - destruct (IH (Z.max k k1)) as [Hin Hmax]. split.
    + destruct Hin as [E|Hin]; [|right; right; exact Hin].
      rewrite <- E. destruct (Z.max_spec k k1) as [[_ ->]|[_ ->]];
        [right; left|left]; reflexivity.
    + intros x [<-|[<-|Hx]].
      * specialize (Hmax (Z.max k k1) (or_introl eq_refl)). lia.
      * specialize (Hmax (Z.max k k1) (or_introl eq_refl)). lia.
      * apply Hmax. right. exact Hx.
Qed.

(** [max(rounds.keys())] is a round of the debate, and the greatest. *)
Lemma latest_round_spec (rnds : gmap Z (list Stored)) (r0 : Z)
    (l0 : list Stored) :
  rnds !! r0 = Some l0 ->
  exists (latest : Z) (filed : list Stored),
    latest_round rnds = Ok latest /\
    rnds !! latest = Some filed /\
    forall k v, rnds !! k = Some v -> k <= latest.
Proof.
  intros H0. unfold latest_round.
  assert (Hkeys : forall k, In k (List.map fst (map_to_list rnds))
                            <-> exists v, rnds !! k = Some v).
  { intros k. rewrite in_map_iff. split.
    - intros ([k' v] & <- & Hin). exists v.
      apply elem_of_map_to_list. apply list_elem_of_In. exact Hin.
    - intros [v Hv]. exists (k, v). split; [reflexivity|].
      apply list_elem_of_In. apply elem_of_map_to_list. exact Hv. }
  destruct (List.map fst (map_to_list rnds)) as [|k ks] eqn:E.
  - exfalso. apply (proj2 (Hkeys r0)). eauto.
  - destruct (fold_max_spec ks k) as [Hin Hmax].
    apply Hkeys in Hin. destruct Hin as [filed Hfiled].
    exists (fold_left Z.max ks k), filed.
    split; [reflexivity|]. split; [exact Hfiled|].
    intros k' v Hv. apply Hmax. apply Hkeys. eauto.
Qed.

Lemma latest_round_empty : latest_round ∅ = Raise ValueError.
Proof. reflexivity. Qed.

(** [conclude] for a tracked debate is final arbitration on its latest
    round. *)
Lemma process_moderation_conclude (now : Z) (data_debate_id : option string)
    (s : t) (debate : Debate) (latest : Z) (filed : list Stored) :
  dict_get (get_default data_debate_id "default") (active_debates s)
    = Some debate ->
  latest_round (rounds debate) = Ok latest ->
  rounds debate !! latest = Some filed ->
  process_moderation now "conclude" data_debate_id s
    = _perform_final_arbitration now (get_default data_debate_id "default")
        latest filed s.
Proof.
  intros Hget Hlatest Hfiled. unfold process_moderation.
  change (String.eqb "conclude" "deadlock") with false.
  change (String.eqb "conclude" "loop_detected") with false.
  change (String.eqb "conclude" "conclude") with true. cbv iota.
  erewrite run_bind_silent by reflexivity.
  rewrite Hget.
  erewrite run_bind_silent
    by (unfold lift_result; rewrite Hlatest; reflexivity).
  rewrite Hfiled.
  erewrite run_bind_silent by reflexivity.
  reflexivity.
Qed.

(** Any other state than the three the handler knows, and [conclude] for
    a debate the table does not hold, do nothing. *)
Lemma process_moderation_ignores (now : Z) (state : string)
    (data_debate_id : option string) (s : t) :
  state <> "deadlock" -> state <> "loop_detected" ->
  (state = "conclude" ->
   dict_get (get_default data_debate_id "default") (active_debates s) = None) ->
  process_moderation now state data_debate_id s = (Ok tt, s, []).
Proof.
  intros Hd Hl Hc. unfold process_moderation.
  destruct (String.eqb_spec state "deadlock"); [congruence|].
  destruct (String.eqb_spec state "loop_detected"); [congruence|].
  destruct (String.eqb_spec state "conclude") as [E|_]; [|reflexivity].
  erewrite run_bind_silent by reflexivity.
  rewrite (Hc E). reflexivity.
Qed.

(** ** A sound table *)








End ArbiterFacts.



Module ArbiterRuns.
Import ClaudeAgent ClaudeFacts ArbitrationFacts EvictionFacts ArbiterFacts.



(** X5. Filing keeps what was filed, in arrival order: in every debate
    still tracked afterwards, each round is the round it was, except the
    round of the response, which is its former list with the response
    appended; the start time of a debate never changes. *)
Theorem filing_keeps_arrival_order (cosine : Vec -> Vec -> Q) (now : Z)
    (response : Response) (agent : string) (s : t) :
  NoDup (List.map fst (active_debates s)) ->
  let s' := final_state (process_response cosine now response agent s) in
  forall (k : string) (after : Debate),
    dict_get k (active_debates s') = Some after ->
    let before := debate_at now k s in
    start_time after = start_time before /\
    (forall round_num : Z,
       rounds after !! round_num =
         if String.eqb (id_of response) k
            && (round_num =? round_of response)
         then Some (filed_at now k round_num s ++ [stored now response agent])
         else rounds before !! round_num) /\
    (k <> id_of response ->
     dict_get k (active_debates s) = Some after).
Proof.
  intros Hnd. cbv zeta. intros k after Hafter.
  assert (Hin : NoDup (List.map fst (active_debates
                         (ingested now response agent s))))
    by (unfold ingested; cbn [active_debates]; apply dict_set_NoDup, Hnd).
  assert (Hfiled : exists d1,
            dict_get k (active_debates (ingested now response agent s))
              = Some d1 /\
            rounds after = rounds d1 /\ start_time after = start_time d1 /\
            (k <> id_of response -> after = d1)).
  { destruct (process_response_state cosine now response agent s)
      as [E|E]; rewrite E in Hafter.
    - exists after. auto.
    - assert (Hmk : NoDup (List.map fst (active_debates
                (marked (id_of response) (ingested now response agent s))))).
      { unfold marked.
        destruct (dict_get (id_of response)
                    (active_debates (ingested now response agent s)));
          [|exact Hin].
        cbn [active_debates]. apply dict_set_NoDup, Hin. }
      apply (cleaned_get _ _ _ Hmk) in Hafter.
      unfold marked in Hafter.
      destruct (dict_get (id_of response)
                  (active_debates (ingested now response agent s)))
        as [d0|] eqn:E0; [|exists after; auto].
      cbn [active_debates] in Hafter. rewrite dict_get_set in Hafter.
      destruct (String.eqb_spec (id_of response) k) as [<-|Hne].
      + injection Hafter as <-. exists d0.
        split; [exact E0|]. split; [reflexivity|]. split; [reflexivity|].
        congruence.
      + exists after. auto. }
  destruct Hfiled as (d1 & Hd1 & Hr & Ht & Hsame).
  unfold ingested in Hd1. cbn [active_debates] in Hd1.
  rewrite dict_get_set in Hd1.
  destruct (String.eqb_spec (id_of response) k) as [<-|Hne].
  - injection Hd1 as <-. cbn [rounds start_time] in Hr, Ht.
    split; [exact Ht|]. split; [|congruence].
    intros round_num. rewrite Hr. cbn [andb].
    destruct (Z.eqb_spec round_num (round_of response)) as [->|Hround].
    + rewrite lookup_insert_eq. reflexivity.
    + rewrite lookup_insert_ne by congruence. reflexivity.
  - assert (Hbefore : debate_at now k s = d1)
      by (unfold debate_at; rewrite Hd1; reflexivity).
    rewrite Hbefore. split; [exact Ht|]. split.
    + intros round_num. rewrite Hr. reflexivity.
    + intros _. rewrite Hd1. f_equal. symmetry. apply Hsame. congruence.
Qed.

Lemma filing_keeps_arrival_order_witness :
  let s := ClaudeClaims.tracking [ClaudeClaims.answer "Grok" "early" (9 # 10)] in
  let s' := final_state (process_response (fun _ _ => 0%Q) 1000
                           (ClaudeClaims.reply 0 "late" (6 # 10)) "GPT" s) in
  exists after : Debate,
    dict_get "d1" (active_debates s') = Some after /\
    start_time after = 0 /\
    rounds after !! 0
      = Some [ClaudeClaims.answer "Grok" "early" (9 # 10);
              stored 1000 (ClaudeClaims.reply 0 "late" (6 # 10)) "GPT"].
Proof.
  cbv zeta.
  assert (Hnd : NoDup (List.map fst (active_debates
            (ClaudeClaims.tracking
               [ClaudeClaims.answer "Grok" "early" (9 # 10)])))).
  { apply (bool_decide_unpack _). vm_compute. exact I. }
  destruct (dict_get "d1" (active_debates (final_state
              (process_response (fun _ _ => 0%Q) 1000
                 (ClaudeClaims.reply 0 "late" (6 # 10)) "GPT"
                 (ClaudeClaims.tracking
                    [ClaudeClaims.answer "Grok" "early" (9 # 10)])))))
    as [after|] eqn:E; [|vm_compute in E; discriminate E].
  exists after. split; [reflexivity|].
  destruct (filing_keeps_arrival_order (fun _ _ => 0%Q) 1000
              (ClaudeClaims.reply 0 "late" (6 # 10)) "GPT"
              (ClaudeClaims.tracking
                 [ClaudeClaims.answer "Grok" "early" (9 # 10)])
              Hnd "d1" after E) as (Ht & Hr & _).
  split; [exact Ht|]. rewrite Hr. reflexivity.
Defined.






(** X7. A [conclude] signal for a tracked debate runs final arbitration on
    the round with the greatest number, on the responses filed there; for
    a debate the table does not hold it does nothing. *)
Theorem conclude_takes_latest_round (now : Z) (data_debate_id : option string)
    (s : t) :
  let debate_id := get_default data_debate_id "default" in
  let r := process_moderation now "conclude" data_debate_id s in
  (dict_get debate_id (active_debates s) = None -> r = (Ok tt, s, [])) /\
  (forall debate r0 l0,
     dict_get debate_id (active_debates s) = Some debate ->
     rounds debate !! r0 = Some l0 ->
     exists latest filed,
       rounds debate !! latest = Some filed /\
       (forall k v, rounds debate !! k = Some v -> k <= latest) /\
       r = _perform_final_arbitration now debate_id latest filed s).
Proof.
  cbv zeta. split.
  - intros Hget. apply process_moderation_ignores; auto; discriminate.
  - intros debate r0 l0 Hget H0.
    destruct (latest_round_spec (rounds debate) r0 l0 H0)
      as (latest & filed & Hlatest & Hfiled & Hmax).
    exists latest, filed. split; [exact Hfiled|]. split; [exact Hmax|].
    apply (process_moderation_conclude now data_debate_id s debate latest
             filed Hget Hlatest Hfiled).
Qed.

(** An arbiter tracking debate [default] with rounds 0 and 2 filed. *)
Definition two_rounds : t :=
  {| CONFIG := default_config;
     active_debates :=
       [("default",
         {| rounds := <[ 2 := [ClaudeClaims.answer "GPT" "later" (6 # 10)] ]>
                        {[ 0 := [ClaudeClaims.answer "Grok" "early"
                                   (9 # 10)] ]};
            status := active; start_time := 0 |})];
     model := None |}.

Lemma conclude_takes_latest_round_witness :
  process_moderation 9 "conclude" None two_rounds
    = _perform_final_arbitration 9 "default" 2
        [ClaudeClaims.answer "GPT" "later" (6 # 10)] two_rounds /\
  process_moderation 9 "conclude" (Some "other") two_rounds
    = (Ok tt, two_rounds, []).
Proof.
  split.
  - pose proof (conclude_takes_latest_round 9 None two_rounds) as H.
    cbv zeta in H. destruct H as [_ H].
    destruct (H {| rounds :=
                     <[ 2 := [ClaudeClaims.answer "GPT" "later" (6 # 10)] ]>
                       {[ 0 := [ClaudeClaims.answer "Grok" "early"
                                  (9 # 10)] ]};
                   status := active; start_time := 0 |}
                0 [ClaudeClaims.answer "Grok" "early" (9 # 10)]
                eq_refl eq_refl)
      as (latest & filed & Hfiled & Hmax & Hrun).
    cbn [rounds] in Hfiled, Hmax.
    pose proof (Hmax 2 _ eq_refl) as Hle.
    apply lookup_insert_Some in Hfiled as [[<- <-]|[Hne Hfiled]].
    + exact Hrun.
    + apply lookup_singleton_Some in Hfiled as [<- _]. exfalso. lia.
  - pose proof (conclude_takes_latest_round 9 (Some "other") two_rounds) as H.
    cbv zeta in H. destruct H as [H _]. apply H. reflexivity.
Defined.

End ArbiterRuns.


Module ArbitrationEdges.
Import ClaudeAgent ClaudeFacts ArbitrationFacts EvictionFacts ArbiterFacts.

(** X8. Round arbitration on a single response declares consensus on it,
    whatever its content, its confidence, the round and the thresholds; on
    no response at all it raises [IndexError] before sending anything. *)
Theorem arbitration_of_one_or_none (cosine : Vec -> Vec -> Q) (now : Z)
    (debate_id : string) (round_num : Z) (s : t) :
  _perform_arbitration cosine now debate_id round_num [] s
    = (Raise IndexError, s, []) /\
  forall only : Stored,
    _perform_arbitration cosine now debate_id round_num [only] s
      = enacted now debate_id round_num [only] s (Consensus only).
Proof.
  split; [reflexivity|]. intros only. reflexivity.
Qed.

(** X9. From [MAX_DEBATE_ROUNDS] on, round arbitration on two responses or
    more never asks for another round: it publishes an outcome on the
    arbitration channel, with status [consensus], [strong_confidence] or
    [concluded], and no [continue] record. *)
Theorem max_rounds_end_the_debate (cosine : Vec -> Vec -> Q) (now : Z)
    (debate_id : string) (round_num : Z) (responses : list Stored) (s : t) :
  (2 <= length responses)%nat ->
  MAX_DEBATE_ROUNDS (CONFIG s) <= round_num ->
  exists (sg : Signal) (o : Outcome),
    events (_perform_arbitration cosine now debate_id round_num responses s)
      = [WsSend (PSignal sg);
         RedisPublish (REDIS_CHANNEL_ARB (CONFIG s)) (POutcome o)] /\
    out_debate_id o = debate_id /\
    out_round o = round_num /\
    (out_status o = "consensus" \/ out_status o = "strong_confidence" \/
     out_status o = "concluded").
Proof.
  intros Hlen Hmax.
  destruct (ranking_of_two responses Hlen)
    as (top & second & rest & Hrank & _).
  rewrite (_perform_arbitration_run cosine now debate_id round_num responses
             s top second rest Hrank).
  unfold decided.
  destruct (consensus_reached cosine s responses).
  { cbn [enacted events snd]. eexists _, _. split; [reflexivity|].
    cbn. auto. }
  destruct (_ && _).
  { cbn [enacted events snd]. eexists _, _. split; [reflexivity|].
    cbn. auto. }
  apply Z.leb_le in Hmax. rewrite Hmax. cbn [enacted].
  destruct (dict_get debate_id (active_debates s)) as [debate|] eqn:Hget.
  - rewrite (_perform_final_arbitration_run now debate_id round_num responses
               s top (second :: rest) debate Hrank Hget).
    eexists _, _. split; [reflexivity|]. cbn. auto.
  - rewrite (_perform_final_arbitration_untracked now debate_id round_num
               responses s top (second :: rest) Hrank Hget).
    eexists _, _. split; [reflexivity|]. cbn. auto.
Qed.

Lemma max_rounds_end_the_debate_witness :
  let responses :=
    ArbitrationClaims.diverging (60 # 100) (55 # 100) (50 # 100) in
  exists (sg : Signal) (o : Outcome),
    events (_perform_arbitration ArbitrationClaims.no_cosine 5 "d1" 4
              responses (ArbitrationClaims.arbiter 4 responses))
      = [WsSend (PSignal sg);
         RedisPublish "arbitration_channel" (POutcome o)] /\
    out_round o = 4.
Proof.
  cbv zeta.
  destruct (max_rounds_end_the_debate ArbitrationClaims.no_cosine 5 "d1" 4
              (ArbitrationClaims.diverging (60 # 100) (55 # 100) (50 # 100))
              (ArbitrationClaims.arbiter 4
                 (ArbitrationClaims.diverging (60 # 100) (55 # 100)
                    (50 # 100))))
    as (sg & o & Hev & _ & Hround & _).
  - cbn. lia.
  - cbn. lia.
  - exists sg, o. split; [exact Hev|exact Hround].
Defined.

End ArbitrationEdges.

(** * Word-set similarity *)

Module SimilarityFacts.
















End SimilarityFacts.

(** * Consensus by word overlap *)

Module ConsensusFacts.
Import ClaudeAgent ClaudeFacts ArbitrationFacts SimilarityFacts.










End ConsensusFacts.

Module ConsensusRuns.
Import ClaudeAgent ClaudeFacts ArbitrationFacts SimilarityFacts ConsensusFacts.






End ConsensusRuns.

(** * Eviction after final arbitration *)

Module EvictionRuns.
Import ClaudeAgent ClaudeFacts EvictionFacts ArbiterFacts.

(** X13. Final arbitration on a tracked debate leaves the table as it was
    but for that debate's status while the table holds no more than
    [MAX_HISTORY_SIZE] debates. Above the cap it removes exactly one
    debate, a completed one that started no later than any other completed
    one, possibly the debate just concluded, and keeps every other entry;
    unless that debate's id is the empty string, in which case nothing is
    removed. *)
Theorem final_arbitration_evicts_one (now : Z) (debate_id : string)
    (round_num : Z) (responses : list Stored) (s : t) (debate : Debate) :
  NoDup (List.map fst (active_debates s)) ->
  responses <> [] ->
  dict_get debate_id (active_debates s) = Some debate ->
  let concluded_table := active_debates (marked debate_id s) in
  let s' := final_state (_perform_final_arbitration now debate_id round_num
                           responses s) in
  dict_get debate_id concluded_table = Some (complete debate) /\
  (forall k, k <> debate_id ->
     dict_get k concluded_table = dict_get k (active_debates s)) /\
  (Z.of_nat (length (active_debates s)) <= MAX_HISTORY_SIZE (CONFIG s) ->
   active_debates s' = concluded_table) /\
  (MAX_HISTORY_SIZE (CONFIG s) < Z.of_nat (length (active_debates s)) ->
   exists gone,
     oldest_of concluded_table gone /\
     (gone = "" -> active_debates s' = concluded_table) /\
     (gone <> "" ->
      dict_get gone (active_debates s') = None /\
      S (length (active_debates s')) = length (active_debates s) /\
      forall k, k <> gone ->
        dict_get k (active_debates s') = dict_get k concluded_table)).
Proof.
  intros Hnd Hne Hget. cbv zeta.
  rewrite (final_arbitration_state now debate_id round_num responses s debate
             Hne Hget).
  unfold marked. rewrite Hget. cbn [active_debates CONFIG].
  assert (Hlen : length (dict_set debate_id (complete debate)
                           (active_debates s))
                 = length (active_debates s)).
  { apply (dict_set_length_present _ _ debate), Hget. }
  assert (Hnd' : NoDup (List.map fst (dict_set debate_id (complete debate)
                                        (active_debates s)))).
  { apply dict_set_NoDup, Hnd. }
  split; [apply dict_get_set_eq|].
  split; [intros k Hk; apply dict_get_set_ne; congruence|].
  unfold cleaned. cbn [active_debates CONFIG model]. rewrite Hlen.
  split.
  { intros Hcap. apply Z.ltb_ge in Hcap. rewrite Hcap. reflexivity. }
  intros Hcap. apply Z.ltb_lt in Hcap. rewrite Hcap.
  pose proof (oldest_completed_spec
                (dict_set debate_id (complete debate) (active_debates s)))
    as Hspec.
  destruct (oldest_completed _ None None) as [gone|].
  - exists gone. split; [exact Hspec|].
    destruct (String.eqb_spec gone "") as [->|Hgone].
    + split; [reflexivity|]. intros Hno. contradiction.
    + split; [intros Hno; contradiction|]. intros _.
      cbn [active_debates].
      split; [apply dict_get_del_eq, Hnd'|].
      split.
      * rewrite <- Hlen. destruct Hspec as (d & Hin & _).
        apply (dict_del_length gone d).
        apply dict_In_get; assumption.
      * intros k Hk. apply dict_get_del_ne. exact Hk.
  - exfalso.
    assert (Hst : status (complete debate) = active).
    { apply (Hspec debate_id). apply dict_get_In, dict_get_set_eq. }
    discriminate Hst.
Qed.

Lemma final_arbitration_evicts_one_witness :
  let s' := final_state (_perform_final_arbitration 9 "live" 0
                           [ClaudeClaims.answer "GPT" "done" (6 # 10)]
                           EvictionClaims.crowded) in
  dict_get "live" (active_debates s') = None /\
  length (active_debates s') = 2%nat.
Proof.
  cbv zeta.
  assert (Hnd : NoDup (List.map fst (active_debates EvictionClaims.crowded))).
  { apply (bool_decide_unpack _). vm_compute. exact I. }
  pose proof (final_arbitration_evicts_one 9 "live" 0
                [ClaudeClaims.answer "GPT" "done" (6 # 10)]
                EvictionClaims.crowded (EvictionClaims.debate_of active 0)
                Hnd ltac:(discriminate) eq_refl) as H.
  cbv zeta in H. destruct H as (_ & _ & _ & H).
  destruct H as (gone & (d & Hin & Hst & Hmin) & _ & Hgone);
    [vm_compute; reflexivity|].
  assert (Hlive : In ("live", complete (EvictionClaims.debate_of active 0))
                    (active_debates (marked "live" EvictionClaims.crowded))).
  { right. left. reflexivity. }
  assert (Hwho : gone = "live").
  { pose proof (Hmin _ _ Hlive eq_refl) as Hle.
    destruct Hin as [E|[E|[E|[]]]]; injection E as <- <-;
      [exfalso; cbn in Hle; lia|reflexivity|exfalso; cbn in Hle; lia]. }
  subst gone. destruct Hgone as (Hnone & Hlen & _); [discriminate|].
  split; [exact Hnone|]. cbn [length EvictionClaims.crowded active_debates] in Hlen. lia.
Defined.

End EvictionRuns.
